(** * The catalog builder of build.py, embedded and verified

    build.py turns a folder of spreadsheet price lists into one product
    catalog.  This file embeds its functions

      - [extract_brand_from_filename]  (build.py, lines 17-23)
      - [find_header_row]              (build.py, lines 26-32)
      - [clean_price]                  (build.py, lines 35-47)
      - [process_excel_file]           (build.py, lines 50-131)
      - [categorize_product]           (build.py, lines 134-216)
      - [main]                         (build.py, lines 219-268)

    as Rocq functions and proves what they do.

    Python values are modelled as follows.

      - A [str] is the list of its Unicode code points ([pystr]).
      - A [float] is an IEEE 754 binary64 number, as the Standard Library's
        [spec_float] with precision 53 and maximal exponent 1024.
      - An exception that the script does not catch is a [Raise] result.
      - What the Python runtime and pandas supply as tables or capabilities
        is a variable of the section: the Unicode case mapping and decimal
        digits above U+00FF, the text of a float ([repr]), and the reading
        of a spreadsheet file. *)

From Stdlib Require Import Ascii String.
From Stdlib Require Import List Bool Arith NArith ZArith Lia.
From Stdlib Require Import Sorting.Sorted Sorting.Permutation.
From Stdlib Require Import Floats.SpecFloat.
Import ListNotations.

(** ** Strings as code points *)

Definition pystr := list N.

Definition pystr_eq_dec : forall a b : pystr, {a = b} + {a <> b} :=
  list_eq_dec N.eq_dec.

Fixpoint pystr_eqb (a b : pystr) : bool :=
  match a, b with
  | [], [] => true
  | x :: a', y :: b' => N.eqb x y && pystr_eqb a' b'
  | _, _ => false
  end.

(** Source literals are written in this file as UTF-8 text, exactly as in
    build.py, and decoded to code points. *)
Fixpoint utf8_decode (bs : list N) : pystr :=
  match bs with
  | [] => []
  | b0 :: r0 =>
    if (b0 <? 128)%N then b0 :: utf8_decode r0
    else match r0 with
    | [] => [b0]
    | b1 :: r1 =>
      if (b0 <? 224)%N
      then ((b0 - 192) * 64 + (b1 - 128))%N :: utf8_decode r1
      else match r1 with
      | [] => [b0; b1]
      | b2 :: r2 =>
        if (b0 <? 240)%N
        then ((b0 - 224) * 4096 + (b1 - 128) * 64 + (b2 - 128))%N
               :: utf8_decode r2
        else match r2 with
        | [] => [b0; b1; b2]
        | b3 :: r3 =>
          ((b0 - 240) * 262144 + (b1 - 128) * 4096
           + (b2 - 128) * 64 + (b3 - 128))%N :: utf8_decode r3
        end
      end
    end
  end.

Definition py (s : string) : pystr :=
  utf8_decode (map N_of_ascii (list_ascii_of_string s)).

(** The order of [str.__lt__]: code point by code point, a proper prefix
    first.  Diacritics are not folded. *)
Fixpoint str_ltb (a b : pystr) : bool :=
  match a, b with
  | _, [] => false
  | [], _ :: _ => true
  | x :: a', y :: b' =>
    if (x <? y)%N then true
    else if (x =? y)%N then str_ltb a' b' else false
  end.

(** [needle in haystack] on strings: the needle occurs as a substring. *)
Fixpoint startswith (needle s : pystr) : bool :=
  match needle, s with
  | [], _ => true
  | _ :: _, [] => false
  | x :: needle', y :: s' => N.eqb x y && startswith needle' s'
  end.

Fixpoint contains (needle s : pystr) : bool :=
  startswith needle s
  || match s with
     | [] => false
     | _ :: s' => contains needle s'
     end.

(** The same relation as a proposition. *)
Definition substring (needle s : pystr) : Prop :=
  exists before after, s = before ++ needle ++ after.

(** [str.isspace] of one character, which is also what [\s] matches in a
    [str] pattern: the ASCII white space U+0009..U+000D, U+001C..U+001F and
    U+0020, and the Unicode white space U+0085, U+00A0, U+1680,
    U+2000..U+200A, U+2028, U+2029, U+202F, U+205F and U+3000. *)
Definition is_space (c : N) : bool :=
  ((9 <=? c) && (c <=? 13) || (28 <=? c) && (c <=? 32)
   || (c =? 133) || (c =? 160) || (c =? 5760)
   || (8192 <=? c) && (c <=? 8202)
   || (c =? 8232) || (c =? 8233) || (c =? 8239) || (c =? 8287)
   || (c =? 12288))%N.

Fixpoint lstrip (s : pystr) : pystr :=
  match s with
  | [] => []
  | c :: s' => if is_space c then lstrip s' else s
  end.

Definition rstrip (s : pystr) : pystr := rev (lstrip (rev s)).

(** [s.strip()] *)
Definition strip (s : pystr) : pystr := rstrip (lstrip s).

(** [str(n)] of an [int] *)
Fixpoint pystr_of_uint (d : Decimal.uint) : pystr :=
  match d with
  | Decimal.Nil => []
  | Decimal.D0 d => 48%N :: pystr_of_uint d
  | Decimal.D1 d => 49%N :: pystr_of_uint d
  | Decimal.D2 d => 50%N :: pystr_of_uint d
  | Decimal.D3 d => 51%N :: pystr_of_uint d
  | Decimal.D4 d => 52%N :: pystr_of_uint d
  | Decimal.D5 d => 53%N :: pystr_of_uint d
  | Decimal.D6 d => 54%N :: pystr_of_uint d
  | Decimal.D7 d => 55%N :: pystr_of_uint d
  | Decimal.D8 d => 56%N :: pystr_of_uint d
  | Decimal.D9 d => 57%N :: pystr_of_uint d
  end.

Definition str_int (z : Z) : pystr :=
  match z with
  | Z0 => [48%N]
  | Zpos p => pystr_of_uint (Pos.to_uint p)
  | Zneg p => 45%N :: pystr_of_uint (Pos.to_uint p)
  end.

(** ** Floats *)

(** Python's [float] is binary64. *)
Definition pyfloat := spec_float.
Definition prec : Z := 53.
Definition emax : Z := 1024.

Definition float_zero : pyfloat := S754_zero false.

(** [x >= 0] on floats; it is false of a NaN and true of [-0.0]. *)
Definition float_nonneg (x : pyfloat) : bool := SFleb float_zero x.

(** [x < 0] on floats. *)
Definition float_neg (x : pyfloat) : bool := SFltb x float_zero.

(** The binary64 number nearest to the integer [z] (ties to even); beyond
    the largest finite binary64 this is an infinity. *)
Definition nearest_float_of_Z (z : Z) : pyfloat := binary_normalize prec emax z 0 false.

(** The binary64 number nearest to [m / 10^k], for naturals [m] and [k]:
    one correctly rounded division of two exact integers. *)
Definition nearest_float_of_decimal (m : N) (k : nat) : pyfloat :=
  match m with
  | N0 => float_zero
  | Npos p =>
    SFdiv prec emax (S754_finite false p 0)
                    (S754_finite false (Z.to_pos (10 ^ Z.of_nat k)) 0)
  end.

(** ** Exceptions *)

Inductive exn : Type :=
| ValueError
| OverflowError.

Inductive result (A : Type) : Type :=
| Ok (a : A)
| Raise (e : exn).

Arguments Ok {A} a.
Arguments Raise {A} e.

Definition bind {A B : Type} (c : result A) (k : A -> result B) : result B :=
  match c with
  | Ok a => k a
  | Raise e => Raise e
  end.

Notation "x <- c ;; k" := (bind c (fun x => k))
  (at level 61, c at next level, right associativity).

(** ** Spreadsheet values *)

(** A cell as pandas hands it to the script: a missing value ([None], NaN,
    [NaT]), a [bool], an [int], a [float] (a numpy float is one), a [str],
    or a numpy integer such as [numpy.int64], which is what a row of a frame
    of integers alone holds and which is no instance of [int].  [CStr s]
    also stands for any other object whose [str()] is [s], such as a date:
    the script only ever takes the [str()] of such a value. *)
Inductive cell : Type :=
| CMissing
| CBool (b : bool)
| CInt (z : Z)
| CFloat (f : pyfloat)
| CStr (s : pystr)
| CNumpyInt (z : Z).

(** What [row.get(label)] returns: one cell, or a Series of the cells of
    all the columns that carry the label when several do. *)
Inductive value : Type :=
| Scalar (c : cell)
| Series (cs : list cell).

(** A DataFrame: the column labels and the rows, each row with one cell per
    column. *)
Record frame : Type := {
  columns : list cell;
  rows : list (list cell)
}.

(** [pd.isna] of a cell; a NaN float is a missing value. *)
Definition isna (c : cell) : bool :=
  match c with
  | CMissing => true
  | CFloat S754_nan => true
  | _ => false
  end.

Definition notna (c : cell) : bool := negb (isna c).

(** [pd.isna(v)] used as a condition.  Of a Series it is a Series of
    booleans, whose truth value pandas refuses with a [ValueError]. *)
Definition truth_isna (v : value) : result bool :=
  match v with
  | Scalar c => Ok (isna c)
  | Series _ => Raise ValueError
  end.

Definition truth_notna (v : value) : result bool :=
  match v with
  | Scalar c => Ok (notna c)
  | Series _ => Raise ValueError
  end.

(** [isinstance(value, (int, float))]; a [bool] is an [int]. *)
Definition is_int_or_float (c : cell) : bool :=
  match c with
  | CBool _ | CInt _ | CFloat _ => true
  | _ => false
  end.

(** [float(value)] of an [int], [bool] or [float]: an [int] beyond the
    range of binary64 raises [OverflowError]. *)
Definition float_of_int (z : Z) : result pyfloat :=
  match nearest_float_of_Z z with
  | S754_infinity _ => Raise OverflowError
  | f => Ok f
  end.

(** ** Sorting *)

(** [sorted] and [list.sort] are stable: an element goes before the first
    one that is not smaller than it. *)
Fixpoint insert_sorted {A : Type} (ltb : A -> A -> bool) (x : A) (l : list A)
  : list A :=
  match l with
  | [] => [x]
  | y :: l' => if ltb y x then y :: insert_sorted ltb x l' else x :: l
  end.

Definition py_sorted {A : Type} (ltb : A -> A -> bool) (l : list A) : list A :=
  fold_right (insert_sorted ltb) [] l.

(** [sorted(set(l))]: the distinct elements in ascending order.  The order
    in which the set is iterated does not show in the result. *)
Definition sorted_set (l : list pystr) : list pystr :=
  py_sorted str_ltb (nodup pystr_eq_dec l).

(** The order of the tuples [(brand, name)]: the first components decide
    unless they are equal. *)
Definition key_ltb (a b : pystr * pystr) : bool :=
  if pystr_eqb (fst a) (fst b) then str_ltb (snd a) (snd b)
  else str_ltb (fst a) (fst b).

(** ** Paths *)

(** [s.split(sep)] *)
Fixpoint split_on (sep : N) (s : pystr) : list pystr :=
  match s with
  | [] => [[]]
  | c :: s' =>
    if N.eqb c sep then [] :: split_on sep s'
    else match split_on sep s' with
         | [] => [[c]]
         | h :: t => (c :: h) :: t
         end
  end.

(** [Path(filename).name] on a POSIX system: the last component of the
    path, where empty components and [.] are no components. *)
Definition path_name (filename : pystr) : pystr :=
  last (filter (fun c => negb (pystr_eqb c [] || pystr_eqb c [46%N]))
               (split_on 47 filename)) [].

(** [name.rfind('.')], as [None] when there is no period. *)
Fixpoint rfind_dot (s : pystr) (i : nat) (found : option nat) : option nat :=
  match s with
  | [] => found
  | c :: s' => rfind_dot s' (S i) (if N.eqb c 46 then Some i else found)
  end.

(** [Path(filename).stem]: the name up to its last period, unless that
    period is the first or the last character of the name (pathlib up to
    Python 3.13). *)
Definition path_stem (filename : pystr) : pystr :=
  let name := path_name filename in
  match rfind_dot name 0 None with
  | Some i =>
    if (0 <? i) && (i <? length name - 1) then firstn i name else name
  | None => name
  end.

(** ** The script *)

Section Build.

Set Default Proof Using "Type".

(** The uppercase mapping of the code points above U+00FF ([str.upper] maps
    a character to one or more characters). *)
Variable unicode_upper_ext : N -> pystr.

(** The decimal digits above U+00FF with their values: the characters of
    category Nd, which [\d] matches and [float] reads as digits. *)
Variable unicode_decimal_ext : N -> option N.

(** [str(x)] of a [float], and of a Series. *)
Variable float_repr : pyfloat -> pystr.
Variable series_repr : list cell -> pystr.

(** [pd.read_excel(filepath, header=h)] of the file named [filepath] in the
    portfolio folder, [None] when it raises. *)
Variable read_excel : pystr -> option nat -> option frame.

(** [str.upper] of one character: Basic Latin and Latin-1 are written out
    (U+00B5 maps to U+039C, U+00DF to [SS], U+00FF to U+0178). *)
Definition upper_char (c : N) : pystr :=
  if (c <? 128)%N then
    if ((97 <=? c) && (c <=? 122))%N then [(c - 32)%N] else [c]
  else if (c <? 256)%N then
    if (c =? 181)%N then [924%N]
    else if (c =? 223)%N then [83%N; 83%N]
    else if (c =? 255)%N then [376%N]
    else if ((224 <=? c) && (c <=? 254) && negb (c =? 247))%N then [(c - 32)%N]
    else [c]
  else unicode_upper_ext c.

(** [s.upper()] *)
Definition upper (s : pystr) : pystr := flat_map upper_char s.

(** The value of a decimal digit, [None] for any other character.  Latin-1
    has no digits but [0]..[9], and no white space is a digit. *)
Definition decimal_value (c : N) : option N :=
  if ((48 <=? c) && (c <=? 57))%N then Some (c - 48)%N
  else if (c <? 256)%N || is_space c then None
  else unicode_decimal_ext c.

(** What [\d] matches. *)
Definition is_digit (c : N) : bool :=
  match decimal_value c with
  | Some _ => true
  | None => false
  end.

(** [str(x)] *)
Definition py_str (c : cell) : pystr :=
  match c with
  | CMissing => py "nan"
  | CBool true => py "True"
  | CBool false => py "False"
  | CInt z => str_int z
  | CFloat f => float_repr f
  | CStr s => s
  | CNumpyInt z => str_int z
  end.

Definition str_value (v : value) : pystr :=
  match v with
  | Scalar c => py_str c
  | Series cs => series_repr cs
  end.

(** *** extract_brand_from_filename *)

Fixpoint span_digits (s : pystr) : list N * pystr :=
  match s with
  | [] => ([], [])
  | c :: s' =>
    match decimal_value c with
    | Some d => let (ds, r) := span_digits s' in (d :: ds, r)
    | None => ([], s)
    end
  end.

(** The pattern [\s*\d{2,4}$] matched at the start of [s]: all the white
    space there, then a run of two to four digits that nothing follows but,
    at most, one final newline ([$] also matches before it).  The result is
    what is left of [s] after the match. *)
Definition match_year (s : pystr) : option pystr :=
  let (ds, r) := span_digits (lstrip s) in
  if (2 <=? List.length ds) && (List.length ds <=? 4)
     && (pystr_eqb r [] || pystr_eqb r [10%N])
  then Some r else None.

(** [re.sub(r'\s*\d{2,4}$', '', s)]: the leftmost match is removed.  No
    second match can start in what is left after it. *)
Fixpoint sub_year (s : pystr) : pystr :=
  match match_year s with
  | Some r => r
  | None =>
    match s with
    | [] => []
    | c :: s' => c :: sub_year s'
    end
  end.

Definition extract_brand_from_filename (filename : pystr) : pystr :=
  let name := path_stem filename in
  let name := sub_year name in
  strip name.

(** *** find_header_row *)

(** [sep.join(l)] *)
Fixpoint join (sep : pystr) (l : list pystr) : pystr :=
  match l with
  | [] => []
  | [s] => s
  | s :: l' => s ++ sep ++ join sep l'
  end.

Definition row_str (row : list cell) : pystr :=
  join (py " ") (map (fun v => upper (py_str v)) (filter notna row)).

Definition is_header_str (s : pystr) : bool :=
  contains (py "CÓDIGO") s || contains (py "CODIGO") s.

Fixpoint find_header_from (idx : nat) (rs : list (list cell)) : option nat :=
  match rs with
  | [] => None
  | row :: rs' =>
    if is_header_str (row_str row) then Some idx
    else find_header_from (S idx) rs'
  end.

Definition find_header_row (df : frame) : nat :=
  match find_header_from 0 (rows df) with
  | Some idx => idx
  | None => 0
  end.

(** *** clean_price *)

(** [re.sub(r'[^\d.,]', '', s)] *)
Definition keep_price_chars (s : pystr) : pystr :=
  filter (fun c => is_digit c || N.eqb c 46 || N.eqb c 44) s.

(** [s.replace(',', '.')] *)
Definition commas_to_periods (s : pystr) : pystr :=
  map (fun c => if N.eqb c 44 then 46%N else c) s.

Definition digits_value (ds : list N) : N :=
  fold_left (fun acc d => (10 * acc + d)%N) ds 0%N.

(** [float(s)] of a string that holds nothing but decimal digits and
    periods, which is all that is left in [cleaned]: digits with at most one
    period among them, and at least one digit; [None] stands for the
    [ValueError] of any other string. *)
Definition float_of_cleaned (s : pystr) : option pyfloat :=
  let (ip, r) := span_digits s in
  match r with
  | [] =>
    match ip with
    | [] => None
    | _ => Some (nearest_float_of_decimal (digits_value ip) 0)
    end
  | c :: r' =>
    if N.eqb c 46 then
      let (fp, r'') := span_digits r' in
      match r'', ip ++ fp with
      | [], _ :: _ =>
        Some (nearest_float_of_decimal (digits_value (ip ++ fp)) (List.length fp))
      | _, _ => None
      end
    else None
  end.

Definition clean_price (v : value) : result pyfloat :=
  na <- truth_isna v ;;
  if na then Ok float_zero
  else
    match v with
    | Scalar (CBool b) => float_of_int (if b then 1 else 0)
    | Scalar (CInt z) => float_of_int z
    | Scalar (CFloat f) => Ok f
    | _ =>
      let cleaned := keep_price_chars (str_value v) in
      let cleaned := commas_to_periods cleaned in
      match float_of_cleaned cleaned with
      | Some f => Ok f
      | None => Ok float_zero
      end
    end.

(** *** process_excel_file *)

(** The product dictionary that [process_excel_file] builds. *)
Record product : Type := {
  code : pystr;
  name : pystr;
  unit : pystr;
  price : pyfloat;
  brand : pystr
}.

(** The four column variables of the search loop. *)
Record colmap : Type := {
  code_col : option pystr;
  name_col : option pystr;
  unit_col : option pystr;
  price_col : option pystr
}.

Definition no_cols : colmap :=
  {| code_col := None; name_col := None; unit_col := None; price_col := None |}.

(** One turn of the loop of lines 80-89: the [if]/[elif] chain. *)
Definition assign_col (m : colmap) (col : pystr) : colmap :=
  let col_upper := upper col in
  if contains (py "CÓDIGO") col_upper || contains (py "CODIGO") col_upper then
    {| code_col := Some col; name_col := name_col m;
       unit_col := unit_col m; price_col := price_col m |}
  else if contains (py "PRODUCTO") col_upper || contains (py "NOMBRE") col_upper then
    {| code_col := code_col m; name_col := Some col;
       unit_col := unit_col m; price_col := price_col m |}
  else if contains (py "UNIDAD") col_upper then
    {| code_col := code_col m; name_col := name_col m;
       unit_col := Some col; price_col := price_col m |}
  else if contains (py "FINAL") col_upper || contains (py "P. FINAL") col_upper then
    {| code_col := code_col m; name_col := name_col m;
       unit_col := unit_col m; price_col := Some col |}
  else m.

(** The loop of lines 93-96, which stops at its first match. *)
Fixpoint first_precio (cols : list pystr) : option pystr :=
  match cols with
  | [] => None
  | col :: cols' =>
    if contains (py "PRECIO") (upper col) then Some col else first_precio cols'
  end.

(** Lines 75-96. *)
Definition find_columns (cols : list pystr) : colmap :=
  let m := fold_left assign_col cols no_cols in
  match price_col m with
  | None =>
    {| code_col := code_col m; name_col := name_col m;
       unit_col := unit_col m; price_col := first_precio cols |}
  | Some _ => m
  end.

(** The truth value of a column variable: [None] and the empty string are
    false. *)
Definition truthy (c : option pystr) : bool :=
  match c with
  | Some (_ :: _) => true
  | _ => false
  end.

Definition label_of (c : option pystr) : pystr :=
  match c with
  | Some l => l
  | None => []
  end.

(** [row.get(label, default)]: the cell of the column that carries the
    label, a Series when several columns do, the default when none does. *)
Definition row_get (cols : list pystr) (row : list cell) (label : pystr)
           (default : value) : value :=
  match map snd (filter (fun lc => pystr_eqb (fst lc) label) (combine cols row)) with
  | [] => default
  | [c] => Scalar c
  | cs => Series cs
  end.

Definition py_None : value := Scalar CMissing.

(** The body of the loop of lines 105-128 for one row: [None] when the row
    is skipped, the product when it is appended. *)
Definition process_row (cols : list pystr) (m : colmap) (brand_ : pystr)
           (row : list cell) : result (option product) :=
  let code_ := row_get cols row (label_of (code_col m)) py_None in
  let name_ := row_get cols row (label_of (name_col m)) py_None in
  code_na <- truth_isna code_ ;;
  name_na <- (if code_na then Ok true else truth_isna name_) ;;
  if name_na then Ok None
  else if pystr_eqb (strip (str_value code_)) []
          || pystr_eqb (strip (str_value name_)) [] then Ok None
  else if existsb (pystr_eqb (upper (str_value code_)))
                  [py "CÓDIGO"; py "CODIGO"] then Ok None
  else
    unit_ <- (if truthy (unit_col m) then
                present <- truth_notna
                             (row_get cols row (label_of (unit_col m)) py_None) ;;
                if present
                then Ok (strip (str_value
                           (row_get cols row (label_of (unit_col m))
                                    (Scalar (CStr [])))))
                else Ok []
              else Ok []) ;;
    price_ <- (if truthy (price_col m)
               then clean_price (row_get cols row (label_of (price_col m)) py_None)
               else Ok float_zero) ;;
    let p := {| code := strip (str_value code_);
                name := strip (str_value name_);
                unit := unit_;
                price := price_;
                brand := brand_ |} in
    if negb (pystr_eqb (name p) []) && (2 <? List.length (name p))
    then Ok (Some p) else Ok None.

Fixpoint process_rows (cols : list pystr) (m : colmap) (brand_ : pystr)
         (rs : list (list cell)) : result (list product) :=
  match rs with
  | [] => Ok []
  | row :: rs' =>
    r <- process_row cols m brand_ row ;;
    products <- process_rows cols m brand_ rs' ;;
    Ok (match r with
        | Some p => p :: products
        | None => products
        end)
  end.

(** Line 72: the column labels, trimmed and uppercased. *)
Definition normalized_columns (df : frame) : list pystr :=
  map (fun col => upper (strip (py_str col))) (columns df).

(** Lines 71-131, on the frame read with the header row found. *)
Definition process_frame (filename : pystr) (df : frame) : result (list product) :=
  let cols := normalized_columns df in
  let m := find_columns cols in
  if negb (truthy (code_col m) && truthy (name_col m)) then Ok []
  else
    let brand_ := extract_brand_from_filename filename in
    process_rows cols m brand_ (rows df).

(** [filepath] is the name of a file of the portfolio folder. *)
Definition process_excel_file (filepath : pystr) : result (list product) :=
  match read_excel filepath None with
  | None => Ok []
  | Some df_raw =>
    let header_row := find_header_row df_raw in
    match read_excel filepath (Some header_row) with
    | None => Ok []
    | Some df => process_frame (path_name filepath) df
    end
  end.

(** *** categorize_product *)

(** The dictionary of lines 139-209, in its insertion order, which is the
    order in which a dictionary is iterated. *)
Definition categories : list (pystr * list pystr) :=
  [ (py "Café y Chocolate",
     map py ["CAFE"; "CAFÉ"; "NESCAFE"; "LUKAFE"; "COFFEE";
             "COCOA"; "CACAO"; "CHOCOLATE"; "LUKER"; "COBERTURA";
             "MILO"; "CAPPUCCINO"; "MOKACCINO"]%string);
    (py "Lácteos",
     map py ["LECHE"; "QUESO"; "YOGUR"; "YOGURT"; "CREMA DE LECHE";
             "MANTEQUILLA"; "KUMIS"; "AREQUIPE"; "KLIM"; "CONDENSADA";
             "MARGARINA"; "MARG."; "LACTEA"; "LECHERA"]%string);
    (py "Bebidas",
     map py ["JUGO"; "NECTAR"; "REFRESCO"; "GASEOSA"; "TANG";
             "CLIGHT"; "BEBIDA"; "WATER"; "AGUA"; "LIMONADA";
             "NARANJADA"; "TE "; "TEA"; "TISANA"]%string);
    (py "Congelados",
     map py ["CONGELAD"; "FROZEN"; "HELADO"; "HIELO"; "PAPA FRIT";
             "PAPAS A LA"; "NUGGET"; "APANADO"; "PRECOCID"]%string);
    (py "Enlatados y Conservas",
     map py ["ATUN"; "ATÚN"; "SARDINA"; "ENLATAD"; "CONSERVA";
             "ACEITUNA"; "CEREZA"; "MARASCHINO"; "ALCAPARRA";
             "PEPINILLO"; "ENCURTIDO"; "CERNIDO"; "PULPA"]%string);
    (py "Salsas y Condimentos",
     map py ["SALSA"; "MAYONESA"; "MOSTAZA"; "KETCHUP"; "VINAGRE";
             "CALDO"; "SAZON"; "SAZÓN"; "PIMIENTA"; "ESPECIAS";
             "ADOBO"; "CURRY"; "COMINO"; "BBQ"]%string);
    (py "Aceites y Grasas",
     map py ["ACEITE"; "OLIVA"; "GIRASOL"; "VEGETAL"; "CANOLA";
             "MANTECA"; "GRASA"]%string);
    (py "Panadería y Repostería",
     map py ["HARINA"; "H.RICAMASA"; "LEVADURA"; "LEVAPAN";
             "TORTA"; "PONQUE"; "PREMEZCLA"; "POLVO HORNEAR";
             "GELATINA"; "GEL SIN SABOR"; "FLAN"; "NATILLA"]%string);
    (py "Dulces y Confitería",
     map py ["DULCE"; "CARAMELO"; "GALLETA"; "BOCADILLO";
             "MERMELADA"; "MIEL"; "AZUCAR"; "AZÚCAR"; "PANELA";
             "GUAYABA"; "AREQUIPE"; "MANJAR"; "OBLEAS"; "COCO ARTESANAL";
             "OREO"; "CHIPS AHOY"; "CLUB SOCIAL"; "FESTIVAL"; "NUCITA"]%string);
    (py "Cereales y Granos",
     map py ["CEREAL"; "AVENA"; "ZUCARITAS"; "CORN FLAKES"; "KELLOGG";
             "GRANOLA"; "ARROZ"; "LENTEJA"; "FRIJOL"; "GARBANZO";
             "CHOCAPIC"; "FITNESS"]%string);
    (py "Carnes y Embutidos",
     map py ["CARNE"; "POLLO"; "CERDO"; "RES"; "JAMON"; "JAMÓN";
             "SALCHICHA"; "CHORIZO"; "TOCINETA"; "BACON"; "MORTADELA";
             "SALAMI"; "HAMBURGUESA"]%string);
    (py "Frutas y Verduras",
     map py ["FRUTA"; "VERDURA"; "SETA"; "CHAMPIÑON"; "CHAMPIÑÓN";
             "HONGO"; "PIÑA"; "MANGO"; "FRESA"; "MORA"; "DURAZNO";
             "TOMATE"; "CEBOLLA"; "MAIZ"; "MAÍZ"; "ARVEJA"]%string);
    (py "Limpieza y Hogar",
     map py ["DETERGENTE"; "DET."; "JABON"; "JABÓN"; "LIMPIA";
             "LAVALOZA"; "DESINFECT"; "CLORO"; "BLANQUEADOR";
             "SUAVIZANTE"; "GRANDIOSO"; "POPOURRI"; "LAVANDA"; "FASSI"]%string);
    (py "Empaques y Desechables",
     map py ["EMPAQUE"; "PAPEL"; "WRAP"; "CONTENEDOR"; "VASO";
             "PLATO"; "CUCHARA"; "TENEDOR"; "SERVILLETA"; "BOLSA";
             "ALUMINIO"; "FILM"; "STRETCH"; "DESECHABLE"]%string) ].

(** The loops of lines 211-214 over a table: the first category one of
    whose keywords occurs in the name. *)
Fixpoint first_category (name_upper : pystr) (table : list (pystr * list pystr))
  : option pystr :=
  match table with
  | [] => None
  | (category, keywords) :: table' =>
    if existsb (fun keyword => contains keyword name_upper) keywords
    then Some category
    else first_category name_upper table'
  end.

Definition categorize_product (product_name : pystr) : pystr :=
  let name_upper := upper product_name in
  match first_category name_upper categories with
  | Some category => category
  | None => py "Otros"
  end.

(** *** main *)

(** A product once [main] has set its category. *)
Record catalog_product : Type := {
  fields : product;
  category : pystr
}.

(** The dictionary that [main] writes out as JSON; [cat_categories] is its
    key [categories]. *)
Record catalog : Type := {
  products : list catalog_product;
  brands : list pystr;
  cat_categories : list pystr;
  total_products : nat
}.

Definition sort_key (x : catalog_product) : pystr * pystr :=
  (brand (fields x), name (fields x)).

(** The loop of lines 237-242: the products of all the files, in the order
    of the files, and the brands added to the set on the way. *)
Fixpoint collect (files : list pystr) : result (list catalog_product * list pystr) :=
  match files with
  | [] => Ok ([], [])
  | filepath :: files' =>
    ps <- process_excel_file filepath ;;
    let ps' := map (fun p => {| fields := p;
                                category := categorize_product (name p) |}) ps in
    rest <- collect files' ;;
    Ok (ps' ++ fst rest, map (fun p => brand p) ps ++ snd rest)
  end.

(** Lines 234-256.  [excel_files] holds the names of the portfolio files
    that the three [glob] calls found. *)
Definition main (excel_files : list pystr) : result catalog :=
  acc <- collect (py_sorted str_ltb excel_files) ;;
  let all_products :=
    py_sorted (fun x y => key_ltb (sort_key x) (sort_key y)) (fst acc) in
  let categories_ := sorted_set (map category all_products) in
  Ok {| products := all_products;
        brands := sorted_set (snd acc);
        cat_categories := categories_;
        total_products := List.length all_products |}.


(** ** Notions used to state the properties *)

(** The four semantic roles of a column. *)
Inductive role : Type :=
| RCode
| RName
| RUnit
| RPrice.

Definition role_eqb (a b : role) : bool :=
  match a, b with
  | RCode, RCode | RName, RName | RUnit, RUnit | RPrice, RPrice => true
  | _, _ => false
  end.

(** The role that the [if]/[elif] chain of lines 82-89 gives to a label:
    the tests of [assign_col] in their order. *)
Definition chain_role (col : pystr) : option role :=
  let col_upper := upper col in
  if contains (py "CÓDIGO") col_upper || contains (py "CODIGO") col_upper
  then Some RCode
  else if contains (py "PRODUCTO") col_upper || contains (py "NOMBRE") col_upper
  then Some RName
  else if contains (py "UNIDAD") col_upper then Some RUnit
  else if contains (py "FINAL") col_upper || contains (py "P. FINAL") col_upper
  then Some RPrice
  else None.

(** The keyword rule of a role as the specification words it, each role on
    its own: a label matches the rule of a role when it holds one of the
    keywords of the role. *)
Definition matches_rule (r : role) (col : pystr) : bool :=
  match r with
  | RCode => contains (py "CÓDIGO") col || contains (py "CODIGO") col
  | RName => contains (py "PRODUCTO") col || contains (py "NOMBRE") col
  | RUnit => contains (py "UNIDAD") col
  | RPrice => contains (py "FINAL") col
  end.

Definition col_of (m : colmap) (r : role) : option pystr :=
  match r with
  | RCode => code_col m
  | RName => name_col m
  | RUnit => unit_col m
  | RPrice => price_col m
  end.

(** One of the keywords occurs in the uppercased name. *)
Definition has_keyword (name_upper : pystr) (keywords : list pystr) : Prop :=
  exists keyword, In keyword keywords /\ substring keyword name_upper.

(** A row is header-like when its joined text holds a code label. *)
Definition header_like (row : list cell) : Prop :=
  substring (py "CÓDIGO") (row_str row) \/ substring (py "CODIGO") (row_str row).

(** The year-suffix convention as the specification words it: the name ends
    in white space followed by a year of two to four digits. *)
Definition follows_year_convention (stem : pystr) : Prop :=
  exists p ws ds,
    stem = p ++ ws ++ ds
    /\ ws <> [] /\ Forall (fun c => is_space c = true) ws
    /\ Forall (fun c => is_digit c = true) ds
    /\ 2 <= List.length ds <= 4.

(** The stem ends in two decimal digits. *)
Definition ends_in_two_digits (stem : pystr) : Prop :=
  exists q a b,
    stem = q ++ [a; b] /\ is_digit a = true /\ is_digit b = true.

(** The stem ends in two decimal digits followed by one final newline. *)
Definition ends_in_two_digits_and_newline (stem : pystr) : Prop :=
  exists s, stem = s ++ [10%N] /\ ends_in_two_digits s.

(** The last character of [s], if any, satisfies [P]. *)
Definition last_char_is (P : N -> Prop) (s : pystr) : Prop :=
  forall q x, s = q ++ [x] -> P x.

(** The cell is an [int] or a [float] below zero. *)
Definition negative_number (v : value) : bool :=
  match v with
  | Scalar (CInt z) => (z <? 0)%Z
  | Scalar (CFloat f) => float_neg f
  | _ => false
  end.

(** The float that is exactly [m * 2^e], when binary64 holds that number. *)
Definition dyadic (m : positive) (e : Z) : pyfloat :=
  binary_normalize prec emax (Zpos m) e false.

(** [a <= b] on sort keys and on strings: [b] is not smaller than [a]. *)
Definition key_le (a b : pystr * pystr) : Prop := key_ltb b a = false.
Definition str_lt (a b : pystr) : Prop := str_ltb a b = true.

(** The lexicographic order of strings, written out: a proper prefix comes
    first, and otherwise the first code point that differs decides. *)
Inductive lex_lt : pystr -> pystr -> Prop :=
| lex_lt_prefix (y : N) (b : pystr) : lex_lt [] (y :: b)
| lex_lt_head (x y : N) (a b : pystr) : (x < y)%N -> lex_lt (x :: a) (y :: b)
| lex_lt_tail (x : N) (a b : pystr) : lex_lt a b -> lex_lt (x :: a) (x :: b).

(** [x] does not come after [y] in the order of the pair (brand, name):
    its brand is smaller, or the brands are equal and its name is not
    greater. *)
Definition brand_then_name_le (x y : catalog_product) : Prop :=
  lex_lt (brand (fields x)) (brand (fields y))
  \/ (brand (fields x) = brand (fields y)
      /\ (name (fields x) = name (fields y)
          \/ lex_lt (name (fields x)) (name (fields y)))).

(** The trimmed uppercase text of a code cell is a header label. *)
Definition is_header_label (c : cell) : bool :=
  existsb (pystr_eqb (upper (strip (py_str c)))) [py "CÓDIGO"; py "CODIGO"].

(** The products of one file as [main] collects them, each with its
    category; none when the file raises. *)
Definition file_entries (filepath : pystr) : list catalog_product :=
  match process_excel_file filepath with
  | Ok ps => map (fun p => {| fields := p;
                              category := categorize_product (name p) |}) ps
  | Raise _ => []
  end.

(** The number of commas and periods of a text. *)
Definition separators (s : pystr) : nat :=
  count_occ N.eq_dec s 46%N + count_occ N.eq_dec s 44%N.

(** ** Sample inputs *)

(** Tables and files on which the functions are run below.  The sample
    tables leave the code points above U+00FF as they are and know no digit
    there; the samples hold no such character. *)
Definition sample_upper_ext (c : N) : pystr := [c].
Definition sample_decimal_ext (c : N) : option N := None.
Definition sample_float_repr (f : pyfloat) : pystr := py "0.0".
Definition sample_series_repr (cs : list cell) : pystr := py "Series".

Definition lecheria_raw : frame :=
  {| columns := [CInt 0; CInt 1; CInt 2; CInt 3];
     rows :=
       [ [CStr (py "LISTA DE PRECIOS"); CMissing; CMissing; CMissing];
         [CMissing; CMissing; CMissing; CMissing];
         [CStr (py "CÓDIGO"); CStr (py "PRODUCTO"); CStr (py "UNIDAD");
          CStr (py "P. FINAL")];
         [CStr (py "001"); CStr (py "LECHE ENTERA"); CStr (py "LT"); CInt 4500];
         [CStr (py "002"); CStr (py "CAFE MOLIDO"); CStr (py "KG");
          CStr (py "$ 12,50")] ] |}.

Definition lecheria : frame :=
  {| columns := [CStr (py "CÓDIGO"); CStr (py "PRODUCTO"); CStr (py "UNIDAD");
                 CStr (py "P. FINAL")];
     rows :=
       [ [CStr (py "001"); CStr (py "LECHE ENTERA"); CStr (py "LT"); CInt 4500];
         [CStr (py "002"); CStr (py "CAFE MOLIDO"); CStr (py "KG");
          CStr (py "$ 12,50")] ] |}.

Definition alpina : frame :=
  {| columns := [CStr (py "Codigo"); CStr (py " Nombre "); CStr (py "Precio")];
     rows :=
       [ [CStr (py "A1"); CStr (py "YOGURT FRESA"); CInt 3200];
         [CStr (py "A2"); CStr (py "AB"); CInt 100];
         [CMissing; CStr (py "TOTAL"); CMissing] ] |}.

(** A price list whose price cell is the number -4500.5. *)
Definition credit_note : frame :=
  {| columns := [CStr (py "CODIGO"); CStr (py "PRODUCTO"); CStr (py "P. FINAL")];
     rows := [ [CStr (py "D1"); CStr (py "DESCUENTO LECHE");
                CFloat (SFopp (dyadic 9001 (-1)))] ] |}.

(** A sheet whose only name label also holds a code keyword. *)
Definition shadowed_name : frame :=
  {| columns := [CStr (py "CODIGO PRODUCTO"); CStr (py "UNIDAD")];
     rows := [ [CStr (py "LECHE ENTERA"); CStr (py "LT")] ] |}.

Definition sample_read_excel (filepath : pystr) (header : option nat)
  : option frame :=
  if pystr_eqb filepath (py "LECHERIA 26.xlsx") then
    match header with
    | None => Some lecheria_raw
    | Some 2 => Some lecheria
    | Some _ => None
    end
  else if pystr_eqb filepath (py "ALPINA 2025.xls") then Some alpina
  else None.

Definition sample_files : list pystr :=
  [py "LECHERIA 26.xlsx"; py "ALPINA 2025.xls"; py "roto.ods"].

(** A sheet that carries the code label twice once the labels are trimmed
    and uppercased, and a folder that holds it. *)
Definition doubled_code : frame :=
  {| columns := [CStr (py "Codigo"); CStr (py "Nombre"); CStr (py "CODIGO ")];
     rows := [ [CStr (py "1"); CStr (py "QUESO CAMPESINO"); CStr (py "2")] ] |}.

Definition sample_read_excel_doubled (filepath : pystr) (header : option nat)
  : option frame :=
  if pystr_eqb filepath (py "DOBLE.xlsx") then Some doubled_code
  else sample_read_excel filepath header.

(** * Proofs *)

(** Forget the tables that the goal does not mention, so that a decision
    procedure cannot pick them up. *)
Ltac forget_tables :=
  try clear read_excel; try clear series_repr; try clear float_repr;
  try clear unicode_decimal_ext; try clear unicode_upper_ext.

(** ** Strings *)

Lemma pystr_eqb_eq (a b : pystr) : pystr_eqb a b = true <-> a = b.
Proof.
  revert b; induction a as [|x a IH]; intros [|y b]; simpl; split;
    try congruence; try reflexivity.
  - rewrite andb_true_iff, N.eqb_eq, IH. intros [-> ->]; reflexivity.
  - intros E; injection E as -> ->.
    rewrite N.eqb_refl. apply IH. reflexivity.
Qed.

Lemma pystr_eqb_refl (a : pystr) : pystr_eqb a a = true.
Proof. apply pystr_eqb_eq; reflexivity. Qed.

Lemma pystr_eqb_neq (a b : pystr) : pystr_eqb a b = false <-> a <> b.
Proof.
  split.
  - intros E H. apply pystr_eqb_eq in H. congruence.
  - intros H. destruct (pystr_eqb a b) eqn:E; [|reflexivity].
    apply pystr_eqb_eq in E. contradiction.
Qed.

Lemma startswith_spec (needle s : pystr) :
  startswith needle s = true <-> exists after, s = needle ++ after.
Proof.
  revert s; induction needle as [|x needle IH]; intros s; simpl.
  - split; [intros _; exists s; reflexivity | reflexivity].
  - destruct s as [|y s].
    + split; [discriminate | intros [after E]; discriminate].
    + rewrite andb_true_iff, N.eqb_eq, IH. split.
      * intros [-> [after ->]]. exists after. reflexivity.
      * intros [after E]. injection E as -> ->. split; [reflexivity|].
        exists after. reflexivity.
Qed.

Lemma contains_spec (needle s : pystr) :
  contains needle s = true <-> substring needle s.
Proof.
  unfold substring. induction s as [|c s IH].
  - simpl. rewrite orb_false_r, startswith_spec. split.
    + intros [after E]. exists [], after. exact E.
    + intros [before [after E]]. destruct before; [|discriminate].
      exists after. exact E.
  - cbn [contains]. rewrite orb_true_iff, startswith_spec, IH. split.
    + intros [[after E] | [before [after E]]].
      * exists [], after. exact E.
      * exists (c :: before), after. rewrite E. reflexivity.
    + intros [[|c' before] [after E]].
      * left. exists after. exact E.
      * right. injection E as _ E. exists before, after. exact E.
Qed.

Lemma contains_false (needle s : pystr) :
  contains needle s = false <-> ~ substring needle s.
Proof.
  rewrite <- contains_spec. destruct (contains needle s); split; intros;
    congruence.
Qed.

Lemma upper_app (a b : pystr) : upper (a ++ b) = upper a ++ upper b.
Proof. unfold upper. apply flat_map_app. Qed.

(** Uppercasing keeps an occurrence of a word that is its own uppercase. *)
Lemma substring_upper (kw s : pystr) :
  upper kw = kw -> substring kw s -> substring kw (upper s).
Proof.
  intros U [before [after ->]].
  exists (upper before), (upper after).
  rewrite !upper_app, U. reflexivity.
Qed.

Lemma lstrip_decompose (s : pystr) :
  exists ws, s = ws ++ lstrip s /\ Forall (fun c => is_space c = true) ws.
Proof.
  induction s as [|c s [ws [E F]]]; simpl.
  - exists []. split; [reflexivity | constructor].
  - destruct (is_space c) eqn:Sp.
    + exists (c :: ws). split; [simpl; congruence | constructor; assumption].
    + exists []. split; [reflexivity | constructor].
Qed.

Lemma lstrip_spaces (ws s : pystr) :
  Forall (fun c => is_space c = true) ws -> lstrip (ws ++ s) = lstrip s.
Proof.
  induction 1 as [|c ws Sp _ IH]; simpl; [reflexivity|].
  rewrite Sp. exact IH.
Qed.

Lemma lstrip_fixed (c : N) (s : pystr) :
  is_space c = false -> lstrip (c :: s) = c :: s.
Proof. intros Sp. simpl. rewrite Sp. reflexivity. Qed.

Lemma lstrip_idem (s : pystr) : lstrip (lstrip s) = lstrip s.
Proof.
  induction s as [|c s IH]; simpl; [reflexivity|].
  destruct (is_space c) eqn:Sp; [exact IH | simpl; rewrite Sp; reflexivity].
Qed.

Lemma lstrip_snoc (s : pystr) (c : N) :
  is_space c = false -> lstrip (s ++ [c]) = lstrip s ++ [c].
Proof.
  intros Sp. induction s as [|d s IH]; simpl.
  - rewrite Sp. reflexivity.
  - destruct (is_space d); [exact IH | reflexivity].
Qed.

Lemma rstrip_cons (c : N) (s : pystr) :
  is_space c = false -> exists s', rstrip (c :: s) = c :: s'.
Proof.
  intros Sp. unfold rstrip. simpl rev.
  rewrite (lstrip_snoc _ c Sp), rev_app_distr. simpl. eexists; reflexivity.
Qed.

Lemma rstrip_idem (s : pystr) : rstrip (rstrip s) = rstrip s.
Proof. unfold rstrip. rewrite rev_involutive, lstrip_idem. reflexivity. Qed.

Lemma lstrip_head (s : pystr) :
  lstrip s = [] \/ exists c s', lstrip s = c :: s' /\ is_space c = false.
Proof.
  induction s as [|c s IH]; simpl; [left; reflexivity|].
  destruct (is_space c) eqn:Sp; [exact IH|].
  right. exists c, s. split; [reflexivity | exact Sp].
Qed.

(** Trimming a trimmed string changes nothing. *)
Lemma strip_idem (s : pystr) : strip (strip s) = strip s.
Proof.
  unfold strip.
  assert (L : lstrip (rstrip (lstrip s)) = rstrip (lstrip s)).
  { destruct (lstrip_head s) as [E | [c [s' [E Sp]]]]; rewrite E.
    - reflexivity.
    - destruct (rstrip_cons c s' Sp) as [t ->]. apply lstrip_fixed, Sp. }
  rewrite L. apply rstrip_idem.
Qed.

(** ** categorize_product *)

Lemma existsb_keyword (name_upper : pystr) (keywords : list pystr) :
  existsb (fun keyword => contains keyword name_upper) keywords = true
  <-> has_keyword name_upper keywords.
Proof.
  rewrite existsb_exists. unfold has_keyword.
  split; intros [kw [I C]]; exists kw; (split; [exact I|]);
    apply contains_spec; exact C.
Qed.

Lemma first_category_first (name_upper : pystr) (before after : list (pystr * list pystr))
      (cat : pystr) (kws : list pystr) :
  has_keyword name_upper kws ->
  (forall c ks, In (c, ks) before -> ~ has_keyword name_upper ks) ->
  first_category name_upper (before ++ (cat, kws) :: after) = Some cat.
Proof.
  intros Hit. induction before as [|[c ks] before IH]; intros Miss; simpl.
  - apply existsb_keyword in Hit. rewrite Hit. reflexivity.
  - destruct (existsb _ ks) eqn:E.
    + apply existsb_keyword in E. exfalso. apply (Miss c ks); [left; reflexivity | exact E].
    + apply IH. intros c' ks' I. apply (Miss c' ks'). right. exact I.
Qed.

Lemma first_category_none (name_upper : pystr) (table : list (pystr * list pystr)) :
  (forall c ks, In (c, ks) table -> ~ has_keyword name_upper ks) ->
  first_category name_upper table = None.
Proof.
  induction table as [|[c ks] table IH]; intros Miss; simpl; [reflexivity|].
  destruct (existsb _ ks) eqn:E.
  - apply existsb_keyword in E. exfalso. apply (Miss c ks); [left; reflexivity | exact E].
  - apply IH. intros c' ks' I. apply (Miss c' ks'). right. exact I.
Qed.

(** C2.  The category of a product is a function of its name alone: it is
    the first category of the ordered table [categories] one of whose
    keywords is a substring of the uppercased name, and [Otros] when no
    keyword of the table is.  In particular a name that holds both [CAFE]
    and [CHOCOLATE] is in the first category, [Café y Chocolate]. *)
Theorem categorize_product_first_match (product_name : pystr) :
  (forall before cat kws after,
      categories = before ++ (cat, kws) :: after ->
      has_keyword (upper product_name) kws ->
      (forall c ks, In (c, ks) before -> ~ has_keyword (upper product_name) ks) ->
      categorize_product product_name = cat)
  /\ ((forall c ks, In (c, ks) categories -> ~ has_keyword (upper product_name) ks) ->
      categorize_product product_name = py "Otros")
  /\ (substring (py "CAFE") product_name ->
      substring (py "CHOCOLATE") product_name ->
      categorize_product product_name = py "Café y Chocolate").
Proof.
  split; [|split].
  - intros before cat kws after E Hit Miss.
    unfold categorize_product. rewrite E.
    rewrite (first_category_first _ before after cat kws Hit Miss). reflexivity.
  - intros Miss. unfold categorize_product.
    rewrite (first_category_none _ categories Miss). reflexivity.
  - intros Cafe _.
    assert (U : upper (py "CAFE") = py "CAFE") by reflexivity.
    apply (substring_upper _ _ U), contains_spec in Cafe.
    unfold categorize_product, categories.
    cbn [first_category existsb map]. rewrite Cafe. reflexivity.
Qed.

(** ** find_header_row *)

Lemma is_header_str_spec (row : list cell) :
  is_header_str (row_str row) = true <-> header_like row.
Proof.
  unfold is_header_str, header_like.
  rewrite orb_true_iff, !contains_spec. reflexivity.
Qed.

Lemma find_header_from_first (rs : list (list cell)) :
  forall idx i row,
    nth_error rs i = Some row ->
    header_like row ->
    (forall j row', j < i -> nth_error rs j = Some row' -> ~ header_like row') ->
    find_header_from idx rs = Some (idx + i).
Proof.
  induction rs as [|r rs IH]; intros idx i row N H Before.
  - destruct i; discriminate.
  - simpl. destruct i as [|i]; simpl in N.
    + injection N as ->. apply is_header_str_spec in H. rewrite H.
      f_equal. lia.
    + destruct (is_header_str (row_str r)) eqn:E.
      * apply is_header_str_spec in E. exfalso.
        apply (Before 0 r); [lia | reflexivity | exact E].
      * rewrite (IH (S idx) i row N H).
        -- f_equal. lia.
        -- intros j row' Lt Nj. apply (Before (S j) row'); [lia | exact Nj].
Qed.

Lemma find_header_from_none (rs : list (list cell)) :
  forall idx,
    (forall row, In row rs -> ~ header_like row) ->
    find_header_from idx rs = None.
Proof.
  induction rs as [|r rs IH]; intros idx Miss; simpl; [reflexivity|].
  destruct (is_header_str (row_str r)) eqn:E.
  - apply is_header_str_spec in E. exfalso. apply (Miss r); [left; reflexivity | exact E].
  - apply IH. intros row I. apply Miss. right. exact I.
Qed.

(** C6.  [find_header_row] joins, for each row, the uppercased texts of the
    cells that are not missing with single spaces, and returns the index of
    the first row, from the top, whose joined text holds [CÓDIGO] or
    [CODIGO]; when no row does, it returns 0. *)
Theorem find_header_row_first_match (df : frame) :
  (forall row,
      row_str row = join (py " ") (map (fun v => upper (py_str v)) (filter notna row)))
  /\ (forall i row,
      nth_error (rows df) i = Some row ->
      header_like row ->
      (forall j row', j < i -> nth_error (rows df) j = Some row' -> ~ header_like row') ->
      find_header_row df = i)
  /\ ((forall row, In row (rows df) -> ~ header_like row) ->
      find_header_row df = 0).
Proof.
  split; [reflexivity | split].
  - intros i row N H Before. unfold find_header_row.
    rewrite (find_header_from_first (rows df) 0 i row N H Before). reflexivity.
  - intros Miss. unfold find_header_row.
    rewrite (find_header_from_none (rows df) 0 Miss). reflexivity.
Qed.

(** ** Floats: the sign of a rounded number *)

Lemma shr_1_nonneg (mrs : shr_record) :
  (0 <= shr_m mrs)%Z -> (0 <= shr_m (shr_1 mrs))%Z.
Proof.
  destruct mrs as [m r s]. simpl.
  destruct m as [|p|p]; [intros _; simpl; lia | | lia].
  destruct p; simpl; lia.
Qed.

Lemma iter_pos_invariant {A : Type} (P : A -> Prop) (f : A -> A) :
  (forall x, P x -> P (f x)) ->
  forall n x, P x -> P (iter_pos f n x).
Proof.
  intros Step. induction n as [n IH | n IH |]; intros x Px; simpl.
  - apply IH, IH, Step, Px.
  - apply IH, IH, Px.
  - apply Step, Px.
Qed.

Lemma shr_nonneg (mrs : shr_record) (e n : Z) :
  (0 <= shr_m mrs)%Z -> (0 <= shr_m (fst (shr mrs e n)))%Z.
Proof.
  intros H. unfold shr. destruct n; simpl; try exact H.
  apply (iter_pos_invariant (fun r => (0 <= shr_m r)%Z) shr_1 shr_1_nonneg), H.
Qed.

Lemma shr_fexp_nonneg (m e : Z) (l : location) :
  (0 <= m)%Z -> (0 <= shr_m (fst (shr_fexp prec emax m e l)))%Z.
Proof.
  intros H. unfold shr_fexp. apply shr_nonneg.
  destruct l as [|[| |]]; exact H.
Qed.

Lemma round_nearest_even_nonneg (m : Z) (l : location) :
  (0 <= m)%Z -> (0 <= round_nearest_even m l)%Z.
Proof.
  intros H. unfold round_nearest_even.
  destruct l as [|[| |]]; try destruct (Z.even m); lia.
Qed.

Lemma binary_round_aux_nonneg (mx ex : Z) (lx : location) :
  (0 <= mx)%Z ->
  float_nonneg (binary_round_aux prec emax false mx ex lx) = true.
Proof.
  intros H. unfold binary_round_aux.
  pose proof (shr_fexp_nonneg mx ex lx H) as H1.
  destruct (shr_fexp prec emax mx ex lx) as [mrs' e']. simpl in H1.
  pose proof (shr_fexp_nonneg _ e' loc_Exact
                (round_nearest_even_nonneg _ (loc_of_shr_record mrs') H1)) as H2.
  destruct (shr_fexp prec emax _ e' loc_Exact) as [mrs'' e'']. simpl in H2.
  destruct (shr_m mrs'') as [|m|m]; [reflexivity | | lia].
  destruct (Z.leb e'' (emax - prec)); reflexivity.
Qed.

Lemma nearest_float_of_Z_nonneg (z : Z) :
  (0 <= z)%Z -> float_nonneg (nearest_float_of_Z z) = true.
Proof.
  intros H. unfold nearest_float_of_Z, binary_normalize.
  destruct z as [|p|p]; [reflexivity | | lia].
  unfold binary_round.
  destruct (shl_align p 0 _) as [mz ez].
  apply binary_round_aux_nonneg. lia.
Qed.

Lemma nearest_float_of_decimal_nonneg (m : N) (k : nat) :
  float_nonneg (nearest_float_of_decimal m k) = true.
Proof.
  unfold nearest_float_of_decimal. destruct m as [|p]; [reflexivity|].
  unfold SFdiv, SFdiv_core_binary.
  set (d := Z.to_pos (10 ^ Z.of_nat k)).
  match goal with
  | |- context [Z.div_eucl ?a ?b] =>
    pose proof (Z.div_eucl_eq a b) as E;
    pose proof (Z.mod_pos_bound a b) as B;
    assert (A : (0 <= a)%Z);
    [| unfold Z.modulo in B; destruct (Z.div_eucl a b) as [q r] ]
  end.
  - match goal with
    | |- (0 <= match ?s with _ => _ end)%Z => destruct s
    end; try lia. apply Z.shiftl_nonneg. lia.
  - simpl xorb. apply binary_round_aux_nonneg.
    specialize (E ltac:(lia)). specialize (B ltac:(lia)). nia.
Qed.

Lemma float_of_int_nonneg (z : Z) (f : pyfloat) :
  (0 <= z)%Z -> float_of_int z = Ok f -> float_nonneg f = true.
Proof.
  intros H. unfold float_of_int.
  pose proof (nearest_float_of_Z_nonneg z H) as S.
  destruct (nearest_float_of_Z z); intros E; try discriminate;
    injection E as <-; exact S.
Qed.

Lemma float_of_cleaned_nonneg (s : pystr) (f : pyfloat) :
  float_of_cleaned s = Some f -> float_nonneg f = true.
Proof.
  unfold float_of_cleaned.
  destruct (span_digits s) as [ip r].
  destruct r as [|c r'].
  - destruct ip; [discriminate|].
    intros E; injection E as <-. apply nearest_float_of_decimal_nonneg.
  - destruct (N.eqb c 46); [|discriminate].
    destruct (span_digits r') as [fp r''].
    destruct r''; [|discriminate].
    destruct (ip ++ fp); [discriminate|].
    intros E; injection E as <-. apply nearest_float_of_decimal_nonneg.
Qed.

(** ** clean_price *)

Lemma float_nonneg_not_neg (f : pyfloat) :
  isna (CFloat f) = false -> float_neg f = false -> float_nonneg f = true.
Proof.
  destruct f as [s|s| |s m e]; try destruct s; simpl; intros; try reflexivity; discriminate.
Qed.

Lemma clean_price_sign (v : value) (f : pyfloat) :
  clean_price v = Ok f -> negative_number v = false -> float_nonneg f = true.
Proof.
  destruct v as [c|cs]; [|discriminate].
  destruct c as [|b|z|g|s|n]; unfold clean_price; cbn [truth_isna bind].
  - intros E _. injection E as <-. reflexivity.
  - intros E _. destruct b; injection E as <-; reflexivity.
  - cbn [isna]. intros E Neg. apply (float_of_int_nonneg z); [|exact E].
    simpl in Neg. apply Z.ltb_ge. exact Neg.
  - destruct (isna (CFloat g)) eqn:Na.
    + intros E _. injection E as <-. reflexivity.
    + intros E Neg. injection E as <-. apply float_nonneg_not_neg; assumption.
  - cbn [isna]. intros E _.
    destruct (float_of_cleaned _) eqn:F; injection E as <-.
    + apply (float_of_cleaned_nonneg _ _ F).
    + reflexivity.
  - cbn [isna]. intros E _.
    destruct (float_of_cleaned _) eqn:F; injection E as <-.
    + apply (float_of_cleaned_nonneg _ _ F).
    + reflexivity.
Qed.

Lemma clean_price_missing (c : cell) :
  isna c = true -> clean_price (Scalar c) = Ok float_zero.
Proof.
  intros Na. unfold clean_price. cbn [truth_isna bind]. rewrite Na. reflexivity.
Qed.

Lemma clean_price_text (s : pystr) :
  clean_price (Scalar (CStr s))
  = Ok (match float_of_cleaned (commas_to_periods (keep_price_chars s)) with
        | Some f => f
        | None => float_zero
        end).
Proof.
  unfold clean_price. cbn [truth_isna bind isna str_value py_str].
  destruct (float_of_cleaned _); reflexivity.
Qed.

Lemma clean_price_numpy_int (z : Z) :
  clean_price (Scalar (CNumpyInt z)) = clean_price (Scalar (CStr (str_int z))).
Proof. reflexivity. Qed.

(** A numpy integer below zero is read as its text, and so loses its
    sign. *)
Lemma clean_price_numpy_int_abs (z : Z) :
  clean_price (Scalar (CNumpyInt z)) = clean_price (Scalar (CNumpyInt (Z.abs z))).
Proof.
  destruct z as [|p|p]; reflexivity.
Qed.

(** C4, as amended.  [clean_price] follows its rules in order, for every
    cell: a missing value gives 0.0; a value that is an instance of [int] or
    [float], that is an [int], a [bool] or a [float], is converted as it is;
    any other value, a numpy integer too, is turned into text, of which only
    digits, commas and periods are kept, then the commas become periods and
    the text is read as a float, 0.0 when it cannot be read.  So 7500 gives
    7500.0, [True] gives 1.0, a missing value and the empty text give 0.0,
    [7.50] gives 7.5 and [$ 12.345,67] gives 0.0; a numpy integer gives the
    price of its absolute value, -5 gives 5.0. *)
Theorem clean_price_rules :
  (forall c, isna c = true -> clean_price (Scalar c) = Ok float_zero)
  /\ (forall b,
      clean_price (Scalar (CBool b)) = Ok (if b then dyadic 1 0 else float_zero))
  /\ (forall z, clean_price (Scalar (CInt z)) = float_of_int z)
  /\ (forall z f, float_of_int z = Ok f -> f = nearest_float_of_Z z)
  /\ (forall f, isna (CFloat f) = false -> clean_price (Scalar (CFloat f)) = Ok f)
  /\ (forall c,
      isna c = false -> is_int_or_float c = false ->
      clean_price (Scalar c) = clean_price (Scalar (CStr (py_str c))))
  /\ (forall s,
      clean_price (Scalar (CStr s))
      = Ok (match float_of_cleaned (commas_to_periods (keep_price_chars s)) with
            | Some f => f
            | None => float_zero
            end))
  /\ (forall z,
      clean_price (Scalar (CNumpyInt z)) = clean_price (Scalar (CStr (str_int z)))
      /\ clean_price (Scalar (CNumpyInt z))
         = clean_price (Scalar (CNumpyInt (Z.abs z))))
  /\ (forall s c,
      In c (keep_price_chars s)
      <-> In c s /\ (is_digit c = true \/ c = 46%N \/ c = 44%N))
  /\ (forall s, List.length (commas_to_periods s) = List.length s
                /\ ~ In 44%N (commas_to_periods s))
  /\ clean_price (Scalar (CInt 7500)) = Ok (dyadic 7500 0)
  /\ clean_price (Scalar (CBool true)) = Ok (dyadic 1 0)
  /\ clean_price (Scalar CMissing) = Ok float_zero
  /\ clean_price (Scalar (CStr (py ""))) = Ok float_zero
  /\ clean_price (Scalar (CStr (py "7.50"))) = Ok (dyadic 15 (-1))
  /\ keep_price_chars (py "$ 12.345,67") = py "12.345,67"
  /\ commas_to_periods (py "12.345,67") = py "12.345.67"
  /\ float_of_cleaned (py "12.345.67") = None
  /\ clean_price (Scalar (CStr (py "$ 12.345,67"))) = Ok float_zero
  /\ clean_price (Scalar (CNumpyInt 7500)) = Ok (dyadic 7500 0)
  /\ clean_price (Scalar (CNumpyInt (-5))) = Ok (dyadic 5 0).
Proof.
  split; [exact clean_price_missing|].
  split; [intros b; destruct b; reflexivity|].
  split; [reflexivity|].
  split.
  { intros z f H. unfold float_of_int in H. forget_tables.
    destruct (nearest_float_of_Z z); congruence. }
  split.
  { intros f Na. unfold clean_price. cbn [truth_isna bind].
    rewrite Na. reflexivity. }
  split.
  { intros c Na Num. destruct c; try discriminate; reflexivity. }
  split; [exact clean_price_text|].
  split.
  { intros z. split; [apply clean_price_numpy_int | apply clean_price_numpy_int_abs]. }
  split.
  { intros s c. unfold keep_price_chars.
    rewrite filter_In, !orb_true_iff, !N.eqb_eq. forget_tables. tauto. }
  split.
  { intros s. unfold commas_to_periods. split; [apply length_map|].
    intros I. apply in_map_iff in I. destruct I as [c [E _]].
    destruct (N.eqb c 44) eqn:Q; [discriminate|].
    apply N.eqb_neq in Q. forget_tables. congruence. }
  repeat split; reflexivity.
Qed.

(** ** process_excel_file: the rows *)

Lemma bind_Ok {A B : Type} (c : result A) (k : A -> result B) (b : B) :
  bind c k = Ok b -> exists a, c = Ok a /\ k a = Ok b.
Proof.
  destruct c as [a|e]; simpl; [|discriminate].
  intros E. exists a. split; [reflexivity | exact E].
Qed.

(** What holds of a row that yields a product. *)
Lemma process_row_emits (cols : list pystr) (m : colmap) (brand_ : pystr)
      (row : list cell) (p : product) :
  process_row cols m brand_ row = Ok (Some p) ->
  exists c n,
    row_get cols row (label_of (code_col m)) py_None = Scalar c
    /\ row_get cols row (label_of (name_col m)) py_None = Scalar n
    /\ isna c = false /\ isna n = false
    /\ code p = strip (py_str c) /\ name p = strip (py_str n)
    /\ code p <> [] /\ name p <> [] /\ 2 < List.length (name p)
    /\ existsb (pystr_eqb (upper (py_str c))) [py "CÓDIGO"; py "CODIGO"] = false
    /\ brand p = brand_
    /\ (if truthy (price_col m)
        then clean_price (row_get cols row (label_of (price_col m)) py_None)
             = Ok (price p)
        else price p = float_zero).
Proof.
  unfold process_row.
  destruct (row_get cols row (label_of (code_col m)) py_None) as [c|cs];
    [|discriminate].
  cbn [truth_isna bind].
  destruct (isna c) eqn:Nc; [discriminate|].
  destruct (row_get cols row (label_of (name_col m)) py_None) as [n|ns];
    [|discriminate].
  cbn [truth_isna bind str_value].
  destruct (isna n) eqn:Nn; [discriminate|].
  destruct (pystr_eqb (strip (py_str c)) []) eqn:Ec; [discriminate|].
  destruct (pystr_eqb (strip (py_str n)) []) eqn:En; [discriminate|].
  cbn [orb].
  destruct (existsb _ _) eqn:Hd; [discriminate|].
  intros E. apply bind_Ok in E. destruct E as [u [_ E]].
  apply bind_Ok in E. destruct E as [pr [Pr E]].
  cbn [name] in E.
  destruct (negb _ && _) eqn:Keep; [|discriminate].
  injection E as <-. cbn [code name price brand].
  apply andb_true_iff in Keep. destruct Keep as [_ Len].
  apply Nat.ltb_lt in Len.
  apply pystr_eqb_neq in Ec. apply pystr_eqb_neq in En.
  exists c, n. repeat (split; [first [reflexivity | assumption]|]).
  destruct (truthy (price_col m)); [exact Pr | congruence].
Qed.

Lemma process_rows_In (cols : list pystr) (m : colmap) (brand_ : pystr)
      (rs : list (list cell)) :
  forall ps p,
    process_rows cols m brand_ rs = Ok ps -> In p ps ->
    exists row, In row rs /\ process_row cols m brand_ row = Ok (Some p).
Proof.
  induction rs as [|row rs IH]; intros ps p E I; simpl in E.
  - injection E as <-. destruct I.
  - apply bind_Ok in E. destruct E as [r [R E]].
    apply bind_Ok in E. destruct E as [ps' [Ps E]].
    injection E as <-.
    destruct r as [q|].
    + destruct I as [<- | I].
      * exists row. split; [left; reflexivity | exact R].
      * destruct (IH ps' p Ps I) as [row' [I' R']].
        exists row'. split; [right; exact I' | exact R'].
    + destruct (IH ps' p Ps I) as [row' [I' R']].
      exists row'. split; [right; exact I' | exact R'].
Qed.

Lemma process_frame_In (filename : pystr) (df : frame) (ps : list product) (p : product) :
  process_frame filename df = Ok ps -> In p ps ->
  exists row,
    In row (rows df)
    /\ process_row (normalized_columns df) (find_columns (normalized_columns df))
                   (extract_brand_from_filename filename) row = Ok (Some p).
Proof.
  unfold process_frame.
  destruct (negb _).
  - intros E I. injection E as <-. destruct I.
  - apply process_rows_In.
Qed.

(** C5, as amended.  The price of a product is not negative unless the
    price cell of its row is a number below zero: [clean_price] hands a
    numeric cell on as it is, and drops the minus sign of a text.  The price
    is 0.0 when the file has no price column, when the cell is missing and
    when its text cannot be read. *)
Theorem price_nonneg_unless_negative_cell
        (filename : pystr) (df : frame) (ps : list product) :
  let cols := normalized_columns df in
  let m := find_columns cols in
  let price_cell row := row_get cols row (label_of (price_col m)) py_None in
  process_frame filename df = Ok ps ->
  forall p, In p ps ->
    exists row,
      In row (rows df)
      /\ process_row cols m (extract_brand_from_filename filename) row = Ok (Some p)
      /\ (negative_number (price_cell row) = false -> float_nonneg (price p) = true)
      /\ (truthy (price_col m) = false -> price p = float_zero)
      /\ (forall c, price_cell row = Scalar c -> isna c = true ->
                    price p = float_zero)
      /\ (forall s, price_cell row = Scalar (CStr s) ->
                    float_of_cleaned (commas_to_periods (keep_price_chars s)) = None ->
                    price p = float_zero).
Proof.
  intros cols m price_cell E p I.
  destruct (process_frame_In filename df ps p E I) as [row [Ir R]].
  exists row. split; [exact Ir|]. split; [exact R|].
  destruct (process_row_emits _ _ _ _ _ R)
    as [c [n [_ [_ [_ [_ [_ [_ [_ [_ [_ [_ [_ P]]]]]]]]]]]]].
  fold cols in P. fold m in P. fold (price_cell row) in P.
  destruct (truthy (price_col m)) eqn:T.
  - split; [intros Neg; apply (clean_price_sign _ _ P Neg)|].
    split; [discriminate|].
    split.
    + intros c0 Ec Nc. rewrite Ec, (clean_price_missing c0 Nc) in P. congruence.
    + intros s Es F. rewrite Es, clean_price_text, F in P. congruence.
  - rewrite P. split; [reflexivity|]. split; [reflexivity|].
    split; reflexivity.
Qed.

(** C9.  Every product that a frame yields has a code and a name that are
    trimmed and not empty, and a name of more than two characters; a row
    whose code or name is missing or blank, or whose trimmed name has at
    most two characters, yields no product. *)
Theorem emitted_code_and_name_valid :
  (forall filename df ps p,
      process_frame filename df = Ok ps -> In p ps ->
      code p <> [] /\ strip (code p) = code p
      /\ name p <> [] /\ strip (name p) = name p
      /\ 2 < List.length (name p))
  /\ (forall cols m brand_ row c,
      row_get cols row (label_of (code_col m)) py_None = Scalar c ->
      isna c = true \/ strip (py_str c) = [] ->
      forall p, process_row cols m brand_ row <> Ok (Some p))
  /\ (forall cols m brand_ row n,
      row_get cols row (label_of (name_col m)) py_None = Scalar n ->
      isna n = true \/ List.length (strip (py_str n)) <= 2 ->
      forall p, process_row cols m brand_ row <> Ok (Some p)).
Proof.
  split; [|split].
  - intros filename df ps p E I.
    destruct (process_frame_In filename df ps p E I) as [row [_ R]].
    destruct (process_row_emits _ _ _ _ _ R)
      as [c [n [_ [_ [_ [_ [Ec [En [Nc [Nn [Len _]]]]]]]]]]].
    repeat split; try assumption.
    + rewrite Ec. apply strip_idem.
    + rewrite En. apply strip_idem.
  - intros cols m brand_ row c G Bad p R.
    destruct (process_row_emits _ _ _ _ _ R)
      as [c' [n [G' [_ [Na [_ [Ec [_ [Nc _]]]]]]]]].
    rewrite G in G'. injection G' as <-.
    destruct Bad as [Bad | Bad]; congruence.
  - intros cols m brand_ row n G Bad p R.
    destruct (process_row_emits _ _ _ _ _ R)
      as [c [n' [_ [G' [_ [Na [_ [En [_ [_ [Len _]]]]]]]]]]].
    rewrite G in G'. injection G' as <-.
    destruct Bad as [Bad | Bad]; [congruence|].
    rewrite En in Len. lia.
Qed.

(** The guard of line 115 skips a row whose code cell, uppercased, is
    exactly a header label. *)
Lemma header_guard_exact (cols : list pystr) (m : colmap) (brand_ : pystr)
      (row : list cell) (c : cell) :
  row_get cols row (label_of (code_col m)) py_None = Scalar c ->
  existsb (pystr_eqb (upper (py_str c))) [py "CÓDIGO"; py "CODIGO"] = true ->
  forall p, process_row cols m brand_ row <> Ok (Some p).
Proof.
  intros G Hd p R.
  destruct (process_row_emits _ _ _ _ _ R)
    as [c' [n [G' [_ [_ [_ [_ [_ [_ [_ [_ [Hd' _]]]]]]]]]]]].
  rewrite G in G'. injection G' as <-. congruence.
Qed.

(** C8.  The guard of line 115 compares the uppercased text of the code
    cell with the header labels without trimming it.  A code cell that is a
    header label after white space, whose trimmed uppercase text is the
    label, passes the guard: the row yields a product, and the code of the
    product is the header label. *)
Theorem header_guard_misses_padded_code :
  let cols := [py "CODIGO"; py "PRODUCTO"] in
  let row := [CStr (py " CODIGO"); CStr (py "LECHE ENTERA")] in
  is_header_label (CStr (py " CODIGO")) = true
  /\ process_row cols (find_columns cols) (py "ALPINA") row
     = Ok (Some {| code := py "CODIGO"; name := py "LECHE ENTERA";
                   unit := []; price := float_zero;
                   brand := py "ALPINA" |}).
Proof. split; reflexivity. Qed.

(** ** process_excel_file: the columns *)

Lemma role_eqb_eq (a b : role) : role_eqb a b = true <-> a = b.
Proof. destruct a, b; simpl; split; congruence. Qed.

(** One turn of the loop sets the variable of the role that the chain gives
    to the label, and no other. *)
Lemma assign_col_role (m : colmap) (col : pystr) (r : role) :
  col_of (assign_col m col) r
  = match chain_role col with
    | Some r' => if role_eqb r' r then Some col else col_of m r
    | None => col_of m r
    end.
Proof.
  unfold assign_col, chain_role.
  destruct (contains (py "CÓDIGO") (upper col) || contains (py "CODIGO") (upper col));
    [destruct r; reflexivity|].
  destruct (contains (py "PRODUCTO") (upper col) || contains (py "NOMBRE") (upper col));
    [destruct r; reflexivity|].
  destruct (contains (py "UNIDAD") (upper col)); [destruct r; reflexivity|].
  destruct (contains (py "FINAL") (upper col) || contains (py "P. FINAL") (upper col));
    destruct r; reflexivity.
Qed.

Lemma fold_assign_keep (post : list pystr) (r : role) :
  forall m,
    (forall l, In l post -> chain_role l <> Some r) ->
    col_of (fold_left assign_col post m) r = col_of m r.
Proof.
  induction post as [|l post IH]; intros m Miss; simpl; [reflexivity|].
  rewrite IH by (intros l' I; apply Miss; right; exact I).
  rewrite assign_col_role.
  destruct (chain_role l) as [r'|] eqn:E; [|reflexivity].
  destruct (role_eqb r' r) eqn:Q; [|reflexivity].
  apply role_eqb_eq in Q. subst r'.
  exfalso. apply (Miss l); [left; reflexivity | exact E].
Qed.

Lemma fold_assign_last (pre post : list pystr) (l : pystr) (r : role) (m : colmap) :
  chain_role l = Some r ->
  (forall l', In l' post -> chain_role l' <> Some r) ->
  col_of (fold_left assign_col (pre ++ l :: post) m) r = Some l.
Proof.
  intros E Miss. rewrite fold_left_app. simpl.
  rewrite (fold_assign_keep post r _ Miss), assign_col_role, E.
  destruct r; reflexivity.
Qed.

Lemma fold_assign_origin (cols : list pystr) (r : role) (l : pystr) :
  forall m,
    col_of (fold_left assign_col cols m) r = Some l ->
    col_of m r = Some l \/ (In l cols /\ chain_role l = Some r).
Proof.
  induction cols as [|c cols IH]; intros m E; simpl in E; [left; exact E|].
  destruct (IH _ E) as [E' | [I R]].
  - rewrite assign_col_role in E'.
    destruct (chain_role c) as [r'|] eqn:C; [|left; exact E'].
    destruct (role_eqb r' r) eqn:Q; [|left; exact E'].
    apply role_eqb_eq in Q. subst r'. injection E' as ->.
    right. split; [left; reflexivity | exact C].
  - right. split; [right; exact I | exact R].
Qed.

Lemma first_precio_first (pre post : list pystr) (l : pystr) :
  contains (py "PRECIO") (upper l) = true ->
  (forall l', In l' pre -> contains (py "PRECIO") (upper l') = false) ->
  first_precio (pre ++ l :: post) = Some l.
Proof.
  intros Hit. induction pre as [|c pre IH]; intros Miss; simpl.
  - rewrite Hit. reflexivity.
  - rewrite (Miss c) by (left; reflexivity).
    apply IH. intros l' I. apply Miss. right. exact I.
Qed.

Lemma first_precio_In (cols : list pystr) (l : pystr) :
  first_precio cols = Some l ->
  In l cols /\ contains (py "PRECIO") (upper l) = true.
Proof.
  induction cols as [|c cols IH]; simpl; [discriminate|].
  destruct (contains (py "PRECIO") (upper c)) eqn:E.
  - intros Q. injection Q as <-. split; [left; reflexivity | exact E].
  - intros Q. destruct (IH Q) as [I C]. split; [right; exact I | exact C].
Qed.

(** The columns found, role by role, from the variables of the chain. *)
Lemma find_columns_col_of (cols : list pystr) (r : role) :
  col_of (find_columns cols) r
  = match r, price_col (fold_left assign_col cols no_cols) with
    | RPrice, None => first_precio cols
    | _, _ => col_of (fold_left assign_col cols no_cols) r
    end.
Proof.
  unfold find_columns.
  destruct (price_col (fold_left assign_col cols no_cols)) eqn:P;
    destruct r; simpl; try rewrite P; reflexivity.
Qed.

Lemma chain_role_matches (l : pystr) (r : role) :
  chain_role l = Some r -> matches_rule r (upper l) = true.
Proof.
  unfold chain_role.
  destruct (contains (py "CÓDIGO") (upper l) || contains (py "CODIGO") (upper l)) eqn:C;
    [intros E; injection E as <-; exact C|].
  destruct (contains (py "PRODUCTO") (upper l) || contains (py "NOMBRE") (upper l)) eqn:Nm;
    [intros E; injection E as <-; exact Nm|].
  destruct (contains (py "UNIDAD") (upper l)) eqn:U;
    [intros E; injection E as <-; exact U|].
  destruct (contains (py "FINAL") (upper l)) eqn:F; simpl;
    [intros E; injection E as <-; exact F|].
  destruct (contains (py "P. FINAL") (upper l)) eqn:PF; [|discriminate].
  exfalso. apply contains_spec in PF. destruct PF as [before [after E]].
  apply contains_false in F. apply F.
  exists (before ++ py "P. "), after. rewrite E, <- app_assoc. reflexivity.
Qed.

Lemma chain_role_code (l : pystr) :
  chain_role l = Some RCode <-> matches_rule RCode (upper l) = true.
Proof.
  split; [apply chain_role_matches|].
  unfold chain_role, matches_rule. intros ->. reflexivity.
Qed.

Lemma col_of_no_cols (r : role) : col_of no_cols r = None.
Proof. destruct r; reflexivity. Qed.

Lemma chain_col_origin (cols : list pystr) (r : role) (l : pystr) :
  col_of (fold_left assign_col cols no_cols) r = Some l ->
  In l cols /\ chain_role l = Some r.
Proof.
  intros E. destruct (fold_assign_origin cols r l no_cols E) as [E' | H].
  - rewrite col_of_no_cols in E'. discriminate.
  - exact H.
Qed.

(** C1, as amended.  The loop of lines 80-89 overwrites a column variable
    at every label to which the chain gives its role, so the column of a
    role is the last such label of the sequence, not the first.  Only the
    fall-back search for [PRECIO], made when the chain found no price
    column, stops at the first label that matches. *)
Theorem column_mapping_last_match_wins (cols pre post : list pystr) (l : pystr) :
  cols = pre ++ l :: post ->
  (forall r,
      chain_role l = Some r ->
      (forall l', In l' post -> chain_role l' <> Some r) ->
      matches_rule r (upper l) = true
      /\ col_of (find_columns cols) r = Some l)
  /\ ((forall l', In l' cols -> chain_role l' <> Some RPrice) ->
      contains (py "PRECIO") (upper l) = true ->
      (forall l', In l' pre -> contains (py "PRECIO") (upper l') = false) ->
      price_col (find_columns cols) = Some l).
Proof.
  intros ->. split.
  - intros r E Miss. split; [apply chain_role_matches, E|].
    rewrite find_columns_col_of.
    pose proof (fold_assign_last pre post l r no_cols E Miss) as L.
    destruct r; try exact L.
    simpl in L. rewrite L. exact L.
  - intros NoFinal Hit Miss.
    change (col_of (find_columns (pre ++ l :: post)) RPrice = Some l).
    rewrite find_columns_col_of.
    destruct (price_col (fold_left assign_col (pre ++ l :: post) no_cols))
      as [c|] eqn:P.
    + destruct (chain_col_origin (pre ++ l :: post) RPrice c P) as [I R].
      exfalso. apply (NoFinal c I R).
    + apply first_precio_first; assumption.
Qed.

(** C10, as amended.  The [if]/[elif] chain gives a label at most one role,
    in the order code, name, unit, price: a label that holds a code keyword
    is a code column whatever else it holds.  The fall-back search for
    [PRECIO] runs after the chain and does not look at the roles given, so
    it may choose as price column a label that is already the code, name or
    unit column.  A file whose every name-matching label also holds a code
    keyword has no name column, and yields no product. *)
Theorem chain_roles_exclusive (cols : list pystr) :
  let chain := fold_left assign_col cols no_cols in
  (forall r l, col_of chain r = Some l -> In l cols /\ chain_role l = Some r)
  /\ (forall r1 r2 l, col_of chain r1 = Some l -> col_of chain r2 = Some l -> r1 = r2)
  /\ (forall r l,
      col_of (find_columns cols) r = Some l ->
      chain_role l = Some r
      \/ (r = RPrice /\ price_col chain = None /\ first_precio cols = Some l))
  /\ (forall l, matches_rule RCode (upper l) = true -> chain_role l = Some RCode)
  /\ ((forall l, In l cols ->
                 matches_rule RName (upper l) = true ->
                 matches_rule RCode (upper l) = true) ->
      name_col (find_columns cols) = None
      /\ forall filename df,
          normalized_columns df = cols -> process_frame filename df = Ok []).
Proof.
  intros chain. split; [|split; [|split; [|split]]].
  - intros r l. apply chain_col_origin.
  - intros r1 r2 l E1 E2.
    apply chain_col_origin in E1. apply chain_col_origin in E2.
    destruct E1 as [_ E1]. destruct E2 as [_ E2]. congruence.
  - intros r l. rewrite find_columns_col_of. fold chain.
    destruct r; try (intros E; left; apply (chain_col_origin cols _ l E)).
    destruct (price_col chain) eqn:P.
    + intros E. left. apply (chain_col_origin cols RPrice l E).
    + intros E. right. repeat split. exact E.
  - intros l. apply chain_role_code.
  - intros Shadow.
    assert (Nm : name_col (find_columns cols) = None).
    { change (col_of (find_columns cols) RName = None).
      rewrite find_columns_col_of.
      destruct (col_of (fold_left assign_col cols no_cols) RName) as [l|] eqn:E;
        [|reflexivity].
      destruct (chain_col_origin cols RName l E) as [I R].
      pose proof (chain_role_matches l RName R) as M.
      apply (Shadow l I), chain_role_code in M. congruence. }
    split; [exact Nm|].
    intros filename df <-. unfold process_frame. rewrite Nm.
    rewrite andb_false_r. reflexivity.
Qed.

(** ** Sorting *)

Section Sorting.

Variable A : Type.
Variable ltb : A -> A -> bool.

Let le (a b : A) : Prop := ltb b a = false.
Let lt (a b : A) : Prop := ltb a b = true.

Hypothesis ltb_asym : forall a b, ltb a b = true -> ltb b a = false.
Hypothesis le_trans : forall a b c, le a b -> le b c -> le a c.

Lemma insert_sorted_perm (x : A) (l : list A) :
  Permutation (x :: l) (insert_sorted ltb x l).
Proof.
  induction l as [|y l IH]; simpl; [reflexivity|].
  destruct (ltb y x); [|reflexivity].
  rewrite perm_swap. constructor. exact IH.
Qed.

Lemma py_sorted_perm (l : list A) : Permutation l (py_sorted ltb l).
Proof.
  induction l as [|x l IH]; simpl; [constructor|].
  rewrite <- insert_sorted_perm. constructor. exact IH.
Qed.

Lemma insert_sorted_sorted (x : A) (l : list A) :
  StronglySorted le l -> StronglySorted le (insert_sorted ltb x l).
Proof using ltb_asym le_trans.
  induction 1 as [|y l S IH F]; simpl.
  - constructor; constructor.
  - destruct (ltb y x) eqn:E.
    + constructor; [exact IH|].
      apply (Permutation_Forall (insert_sorted_perm x l)).
      constructor; [apply ltb_asym, E | exact F].
    + constructor; [constructor; assumption|].
      constructor; [exact E|].
      apply (Forall_impl (le x) (fun z => le_trans x y z E) F).
Qed.

Lemma py_sorted_sorted (l : list A) : StronglySorted le (py_sorted ltb l).
Proof using ltb_asym le_trans.
  induction l as [|x l IH]; simpl; [constructor|].
  apply insert_sorted_sorted, IH.
Qed.

Hypothesis ltb_total : forall a b, ltb a b = false -> ltb b a = false -> a = b.

Lemma sorted_distinct_strict (l : list A) :
  StronglySorted le l -> NoDup l -> StronglySorted lt l.
Proof using ltb_total.
  induction 1 as [|x l S IH F]; intros D; [constructor|].
  inversion D as [|x' l' NI D']; subst.
  constructor; [apply IH, D'|].
  rewrite Forall_forall in *. intros z I.
  unfold lt. destruct (ltb x z) eqn:E; [reflexivity|].
  exfalso. apply NI. rewrite (ltb_total x z E (F z I)). exact I.
Qed.

Lemma strict_sorted_unique (l1 : list A) :
  forall l2,
    StronglySorted lt l1 -> StronglySorted lt l2 ->
    (forall x, In x l1 <-> In x l2) -> l1 = l2.
Proof using ltb_asym.
  assert (Irr : forall a, lt a a -> False).
  { intros a H. pose proof (ltb_asym a a H). unfold lt in H. congruence. }
  induction l1 as [|x l1 IH]; intros l2 S1 S2 Same.
  - destruct l2 as [|y l2]; [reflexivity|].
    exfalso. apply (Same y). left. reflexivity.
  - destruct l2 as [|y l2].
    + exfalso. apply (Same x). left. reflexivity.
    + inversion S1 as [|? ? S1' F1]; subst.
      inversion S2 as [|? ? S2' F2]; subst.
      rewrite Forall_forall in F1, F2.
      assert (x = y) as ->.
      { destruct (proj1 (Same x) (or_introl eq_refl)) as [E | I]; [congruence|].
        destruct (proj2 (Same y) (or_introl eq_refl)) as [E | I']; [congruence|].
        exfalso. pose proof (ltb_asym _ _ (F1 y I')) as Q.
        pose proof (F2 x I) as Q'. unfold lt in Q'. congruence. }
      f_equal. apply IH; try assumption.
      intros z. split; intros I.
      * destruct (proj1 (Same z) (or_intror I)) as [E | I']; [|exact I'].
        subst z. exfalso. apply (Irr y), F1, I.
      * destruct (proj2 (Same z) (or_intror I)) as [E | I']; [|exact I'].
        subst z. exfalso. apply (Irr y), F2, I.
Qed.

End Sorting.

(** ** The order of strings and of sort keys *)

Lemma str_ltb_asym (a : pystr) : forall b, str_ltb a b = true -> str_ltb b a = false.
Proof.
  induction a as [|x a IH]; intros [|y b]; simpl; try congruence.
  destruct (N.ltb_spec x y) as [L | G].
  - intros _. destruct (N.ltb_spec y x); [lia|].
    destruct (N.eqb_spec y x); [lia | reflexivity].
  - destruct (N.eqb_spec x y) as [-> | NE]; [|discriminate].
    rewrite N.ltb_irrefl, N.eqb_refl. apply IH.
Qed.

Lemma str_ltb_trans (a : pystr) :
  forall b c, str_ltb a b = true -> str_ltb b c = true -> str_ltb a c = true.
Proof.
  induction a as [|x a IH]; intros [|y b] [|z c]; simpl; try congruence.
  destruct (N.ltb_spec x y) as [L | G].
  - intros _. destruct (N.ltb_spec y z) as [L' | G'].
    + intros _. destruct (N.ltb_spec x z); [reflexivity | lia].
    + destruct (N.eqb_spec y z) as [-> | NE]; [|discriminate].
      intros _. destruct (N.ltb_spec x z); [reflexivity | lia].
  - destruct (N.eqb_spec x y) as [-> | NE]; [|discriminate].
    intros Hab. destruct (N.ltb_spec y z) as [L' | G']; [reflexivity|].
    destruct (N.eqb_spec y z) as [-> | NE]; [|discriminate].
    apply IH, Hab.
Qed.

Lemma str_ltb_total (a : pystr) :
  forall b, str_ltb a b = false -> str_ltb b a = false -> a = b.
Proof.
  induction a as [|x a IH]; intros [|y b]; simpl; try congruence.
  destruct (N.ltb_spec x y) as [L | G]; [discriminate|].
  destruct (N.eqb_spec x y) as [-> | NE].
  - rewrite N.ltb_irrefl, N.eqb_refl. intros H1 H2. f_equal. apply IH; assumption.
  - intros _. destruct (N.ltb_spec y x); [discriminate | lia].
Qed.

Lemma str_le_trans (a b c : pystr) :
  str_ltb b a = false -> str_ltb c b = false -> str_ltb c a = false.
Proof.
  intros Hab Hbc. destruct (str_ltb c a) eqn:Hca; [|reflexivity].
  destruct (str_ltb a b) eqn:Lab.
  - rewrite (str_ltb_trans c a b Hca Lab) in Hbc. discriminate.
  - rewrite (str_ltb_total a b Lab Hab) in Hca. congruence.
Qed.

Lemma key_ltb_asym (a b : pystr * pystr) :
  key_ltb a b = true -> key_ltb b a = false.
Proof.
  unfold key_ltb. destruct a as [a1 a2], b as [b1 b2]. simpl.
  destruct (pystr_eqb a1 b1) eqn:E.
  - apply pystr_eqb_eq in E. subst. rewrite pystr_eqb_refl. apply str_ltb_asym.
  - destruct (pystr_eqb b1 a1) eqn:E'.
    + apply pystr_eqb_eq in E'. subst. rewrite pystr_eqb_refl in E. discriminate.
    + apply str_ltb_asym.
Qed.

Lemma key_ltb_false (a b : pystr * pystr) :
  key_ltb b a = false <-> a = b \/ key_ltb a b = true.
Proof.
  split.
  - unfold key_ltb. destruct a as [a1 a2], b as [b1 b2]. simpl.
    destruct (pystr_eqb b1 a1) eqn:E.
    + apply pystr_eqb_eq in E. subst. rewrite pystr_eqb_refl. intros H.
      destruct (str_ltb a2 b2) eqn:L; [right; reflexivity|].
      left. f_equal. apply str_ltb_total; assumption.
    + intros H. destruct (pystr_eqb a1 b1) eqn:E'.
      * apply pystr_eqb_eq in E'. subst. rewrite pystr_eqb_refl in E. discriminate.
      * destruct (str_ltb a1 b1) eqn:L; [right; reflexivity|].
        apply pystr_eqb_neq in E'. exfalso. apply E'.
        apply str_ltb_total; assumption.
  - intros [-> | H]; [|apply key_ltb_asym, H].
    unfold key_ltb. rewrite pystr_eqb_refl.
    destruct (str_ltb (snd b) (snd b)) eqn:L; [|reflexivity].
    rewrite (str_ltb_asym _ _ L) in L. discriminate.
Qed.

Lemma key_ltb_trans (a b c : pystr * pystr) :
  key_ltb a b = true -> key_ltb b c = true -> key_ltb a c = true.
Proof.
  unfold key_ltb. destruct a as [a1 a2], b as [b1 b2], c as [c1 c2]. simpl.
  destruct (pystr_eqb a1 b1) eqn:Eab.
  - apply pystr_eqb_eq in Eab. subst b1.
    destruct (pystr_eqb a1 c1); [apply str_ltb_trans | intros _ H; exact H].
  - destruct (pystr_eqb b1 c1) eqn:Ebc.
    + apply pystr_eqb_eq in Ebc. subst c1. rewrite Eab. intros H _. exact H.
    + intros H1 H2. pose proof (str_ltb_trans _ _ _ H1 H2) as H.
      destruct (pystr_eqb a1 c1) eqn:Eac; [|exact H].
      apply pystr_eqb_eq in Eac. subst c1.
      rewrite (str_ltb_asym _ _ H1) in H2. discriminate.
Qed.

Lemma key_le_trans (a b c : pystr * pystr) :
  key_le a b -> key_le b c -> key_le a c.
Proof.
  unfold key_le. rewrite !key_ltb_false.
  intros [-> | Hab] [-> | Hbc]; auto.
  right. apply (key_ltb_trans a b c); assumption.
Qed.

(** ** sorted(set(...)) *)

Lemma sorted_set_In (l : list pystr) (x : pystr) :
  In x (sorted_set l) <-> In x l.
Proof.
  unfold sorted_set. rewrite <- (nodup_In pystr_eq_dec l x).
  split; apply Permutation_in;
    [symmetry|]; apply py_sorted_perm.
Qed.

Lemma sorted_set_sorted (l : list pystr) : StronglySorted str_lt (sorted_set l).
Proof.
  unfold sorted_set.
  apply (sorted_distinct_strict pystr str_ltb str_ltb_total).
  - apply py_sorted_sorted; [exact str_ltb_asym | exact str_le_trans].
  - apply (Permutation_NoDup (py_sorted_perm pystr str_ltb _)), NoDup_nodup.
Qed.

Lemma sorted_set_ext (l1 l2 : list pystr) :
  (forall x, In x l1 <-> In x l2) -> sorted_set l1 = sorted_set l2.
Proof.
  intros Same.
  apply (strict_sorted_unique pystr str_ltb str_ltb_asym);
    try apply sorted_set_sorted.
  intros x. rewrite !sorted_set_In. apply Same.
Qed.

(** ** main *)

(** The brands added to the set are the brands of the products collected. *)
Lemma collect_brands (files : list pystr) :
  forall acc,
    collect files = Ok acc ->
    snd acc = map (fun x => brand (fields x)) (fst acc).
Proof.
  induction files as [|f files IH]; intros acc E; simpl in E.
  - injection E as <-. reflexivity.
  - apply bind_Ok in E. destruct E as [ps [_ E]].
    apply bind_Ok in E. destruct E as [rest [R E]].
    injection E as <-. simpl.
    rewrite map_app, map_map, (IH rest R). reflexivity.
Qed.

Lemma str_ltb_lex (a : pystr) : forall b, str_ltb a b = true <-> lex_lt a b.
Proof.
  induction a as [|x a IH]; intros [|y b]; simpl.
  - split; [discriminate | intros H; inversion H].
  - split; [intros _; constructor | reflexivity].
  - split; [discriminate | intros H; inversion H].
  - destruct (N.ltb_spec x y) as [L | G].
    + split; [intros _; constructor; exact L | reflexivity].
    + destruct (N.eqb_spec x y) as [-> | NE].
      * rewrite IH. split; [intros H; constructor; exact H|].
        intros H. inversion H; subst; [lia | assumption].
      * split; [discriminate|].
        intros H. inversion H; subst; [lia | contradiction].
Qed.

Lemma key_le_brand_then_name (x y : catalog_product) :
  key_le (sort_key x) (sort_key y) -> brand_then_name_le x y.
Proof.
  unfold key_le. rewrite key_ltb_false. unfold brand_then_name_le, sort_key.
  intros [E | L].
  - injection E as Eb En. right. split; [exact Eb | left; exact En].
  - unfold key_ltb in L. cbn [fst snd] in L.
    destruct (pystr_eqb (brand (fields x)) (brand (fields y))) eqn:Q.
    + apply pystr_eqb_eq in Q. right. split; [exact Q|].
      right. apply str_ltb_lex, L.
    + left. apply str_ltb_lex, L.
Qed.

Lemma StronglySorted_weaken {A : Type} (R S : A -> A -> Prop) (l : list A) :
  (forall a b, R a b -> S a b) -> StronglySorted R l -> StronglySorted S l.
Proof.
  intros W. induction 1 as [|a l _ IH F]; constructor; [exact IH|].
  apply (Forall_impl (S a) (W a) F).
Qed.

Lemma sorted_set_lex (l : list pystr) : StronglySorted lex_lt (sorted_set l).
Proof.
  apply (StronglySorted_weaken str_lt lex_lt).
  - intros a b. apply str_ltb_lex.
  - apply sorted_set_sorted.
Qed.

(** C3.  In the catalog that a run emits, the products are in ascending
    order of the pair (brand, name) under the lexicographic order of
    strings by code point: of two products the earlier has the smaller
    brand, or the same brand and a name that is not greater.
    [total_products] is the number of products, and [brands] and
    [categories] are the distinct brands and categories of the products in
    strictly ascending order. *)
Theorem catalog_invariants (excel_files : list pystr) (cat : catalog) :
  main excel_files = Ok cat ->
  StronglySorted brand_then_name_le (products cat)
  /\ total_products cat = List.length (products cat)
  /\ brands cat = sorted_set (map (fun x => brand (fields x)) (products cat))
  /\ cat_categories cat = sorted_set (map category (products cat))
  /\ StronglySorted lex_lt (brands cat)
  /\ (forall b, In b (brands cat)
                <-> exists x, In x (products cat) /\ brand (fields x) = b)
  /\ StronglySorted lex_lt (cat_categories cat)
  /\ (forall c, In c (cat_categories cat)
                <-> exists x, In x (products cat) /\ category x = c).
Proof.
  unfold main. intros E. apply bind_Ok in E. destruct E as [acc [C E]].
  injection E as <-. cbn [products brands cat_categories total_products].
  set (ltb := fun x y => key_ltb (sort_key x) (sort_key y)).
  assert (B : sorted_set (snd acc)
              = sorted_set (map (fun x => brand (fields x))
                                (py_sorted ltb (fst acc)))).
  { rewrite (collect_brands _ acc C). apply sorted_set_ext. intros b.
    rewrite !in_map_iff. split; intros [x [Eb I]]; exists x; (split; [exact Eb|]).
    - apply (Permutation_in _ (py_sorted_perm _ ltb (fst acc))), I.
    - apply (Permutation_in _ (Permutation_sym (py_sorted_perm _ ltb (fst acc)))), I. }
  split.
  { apply (StronglySorted_weaken
             (fun x y => key_le (sort_key x) (sort_key y)) brand_then_name_le).
    - exact key_le_brand_then_name.
    - apply (py_sorted_sorted catalog_product ltb).
      + intros a b. apply key_ltb_asym.
      + intros a b c. apply key_le_trans. }
  split; [reflexivity|].
  split; [exact B|].
  split; [reflexivity|].
  split; [apply sorted_set_lex|].
  split.
  { intros b. rewrite B, sorted_set_In, in_map_iff.
    split; intros [x [H1 H2]]; exists x; split; assumption. }
  split; [apply sorted_set_lex|].
  intros c. rewrite sorted_set_In, in_map_iff.
  split; intros [x [H1 H2]]; exists x; split; assumption.
Qed.

(** ** extract_brand_from_filename *)

Lemma is_digit_not_space (c : N) : is_digit c = true -> is_space c = false.
Proof.
  unfold is_digit, decimal_value.
  destruct ((48 <=? c) && (c <=? 57))%N eqn:D.
  - intros _. apply andb_true_iff in D. destruct D as [L U].
    apply N.leb_le in L. apply N.leb_le in U. unfold is_space.
    repeat match goal with
           | |- context [(?a <=? ?b)%N] => destruct (N.leb_spec a b); try lia
           | |- context [(?a =? ?b)%N] => destruct (N.eqb_spec a b); try lia
           end; reflexivity.
  - destruct (is_space c); [|reflexivity].
    rewrite orb_true_r. discriminate.
Qed.

Lemma sub_year_unfold (s : pystr) :
  sub_year s
  = match match_year s with
    | Some r => r
    | None => match s with
              | [] => []
              | c :: s' => c :: sub_year s'
              end
    end.
Proof. destruct s; reflexivity. Qed.

Lemma span_digits_spec (s : pystr) :
  exists cs,
    s = cs ++ snd (span_digits s)
    /\ List.length cs = List.length (fst (span_digits s))
    /\ Forall (fun c => is_digit c = true) cs.
Proof.
  induction s as [|c s [cs [E [L F]]]]; simpl.
  - exists []. repeat split. constructor.
  - destruct (decimal_value c) eqn:D.
    + destruct (span_digits s) as [ds r]. simpl in *.
      exists (c :: cs). repeat split; simpl; try congruence.
      constructor; [unfold is_digit; rewrite D; reflexivity | exact F].
    + exists []. repeat split. constructor.
Qed.

Lemma span_digits_all (ds : pystr) :
  Forall (fun c => is_digit c = true) ds ->
  snd (span_digits ds) = []
  /\ List.length (fst (span_digits ds)) = List.length ds.
Proof.
  induction 1 as [|c ds D _ [IH1 IH2]]; simpl; [split; reflexivity|].
  unfold is_digit in D. destruct (decimal_value c); [|discriminate].
  destruct (span_digits ds) as [vs r]. simpl in *. split; congruence.
Qed.

(** The digits stop at the latest at a character that is no digit. *)
Lemma span_digits_stops (y : pystr) (z : N) (t : pystr) :
  is_digit z = false ->
  S (List.length t) <= List.length (snd (span_digits (y ++ z :: t))).
Proof.
  intros Nd. induction y as [|c y IH]; simpl.
  - unfold is_digit in Nd. destruct (decimal_value z); [discriminate|].
    simpl. lia.
  - destruct (decimal_value c).
    + destruct (span_digits (y ++ z :: t)) as [vs r]. simpl in *. exact IH.
    + simpl. rewrite length_app. simpl. lia.
Qed.

Lemma lstrip_before_nonspace (v : pystr) (x : N) (t : pystr) :
  is_space x = false ->
  exists w, lstrip (v ++ x :: t) = w ++ x :: t.
Proof.
  intros Sp. induction v as [|c v [w IH]]; simpl.
  - rewrite Sp. exists []. reflexivity.
  - destruct (is_space c); [exists w; exact IH|].
    exists (c :: v). reflexivity.
Qed.

Lemma match_year_long_rest (s : pystr) :
  3 <= List.length (snd (span_digits (lstrip s))) -> match_year s = None.
Proof.
  unfold match_year. destruct (span_digits (lstrip s)) as [ds r]. simpl.
  intros L. destruct r as [|a [|b [|c r]]]; simpl in L; try lia.
  cbn [pystr_eqb orb]. rewrite !andb_false_r. reflexivity.
Qed.

Lemma snoc_cases (s : pystr) : s = [] \/ exists q x, s = q ++ [x].
Proof.
  destruct (rev s) as [|x q] eqn:E.
  - left. apply (f_equal (@rev N)) in E. rewrite rev_involutive in E. exact E.
  - right. exists (rev q), x.
    apply (f_equal (@rev N)) in E. rewrite rev_involutive in E. exact E.
Qed.

(** The pattern matches where the white space before the final digits
    starts. *)
Lemma match_year_at_token (ws ds : pystr) :
  Forall (fun c => is_space c = true) ws ->
  Forall (fun c => is_digit c = true) ds ->
  2 <= List.length ds <= 4 ->
  match_year (ws ++ ds) = Some [].
Proof.
  intros Fw Fd L. unfold match_year. rewrite (lstrip_spaces ws ds Fw).
  assert (Ld : lstrip ds = ds).
  { destruct ds as [|d ds]; [reflexivity|].
    apply lstrip_fixed, is_digit_not_space. inversion Fd; assumption. }
  rewrite Ld. destruct (span_digits_all ds Fd) as [R Len].
  destruct (span_digits ds) as [vs r]. cbn [fst snd] in *. subst r. rewrite Len.
  destruct L as [L1 L2].
  apply Nat.leb_le in L1. apply Nat.leb_le in L2. rewrite L1, L2. reflexivity.
Qed.

(** It matches nowhere before: a character that is no digit stands between
    any earlier start and the final digits. *)
Lemma match_year_not_before (v ws ds : pystr) :
  v <> [] ->
  Forall (fun c => is_space c = true) ws ->
  2 <= List.length ds ->
  last_char_is (fun x => is_space x = false) v ->
  (ws = [] -> last_char_is (fun x => is_digit x = false) v) ->
  match_year (v ++ ws ++ ds) = None.
Proof.
  intros Nv Fw L Sp Dg. apply match_year_long_rest.
  destruct (snoc_cases v) as [-> | [v0 [x ->]]]; [contradiction|].
  pose proof (Sp v0 x eq_refl) as Sx. simpl in Sx.
  rewrite <- app_assoc. simpl.
  destruct (lstrip_before_nonspace v0 x (ws ++ ds) Sx) as [w ->].
  destruct (snoc_cases ws) as [-> | [ws0 [z ->]]].
  - simpl. pose proof (Dg eq_refl v0 x eq_refl) as Dx. simpl in Dx.
    pose proof (span_digits_stops w x ds Dx). lia.
  - assert (Dz : is_digit z = false).
    { apply Forall_app in Fw. destruct Fw as [_ Fz]. inversion Fz as [|? ? Sz _]; subst.
      destruct (is_digit z) eqn:D; [|reflexivity].
      apply is_digit_not_space in D. congruence. }
    replace (w ++ x :: (ws0 ++ [z]) ++ ds) with ((w ++ x :: ws0) ++ z :: ds)
      by (rewrite <- !app_assoc; reflexivity).
    pose proof (span_digits_stops (w ++ x :: ws0) z ds Dz). lia.
Qed.

Lemma sub_year_app (a t r : pystr) :
  match_year t = Some r ->
  (forall u v, a = u ++ v -> v <> [] -> match_year (v ++ t) = None) ->
  sub_year (a ++ t) = a ++ r.
Proof.
  intros Hit. induction a as [|c a IH]; intros Miss.
  - simpl. rewrite sub_year_unfold, Hit. reflexivity.
  - rewrite sub_year_unfold.
    rewrite (Miss [] (c :: a) eq_refl) by discriminate.
    simpl. f_equal. apply IH.
    intros u v E Nv. apply (Miss (c :: u) v); [rewrite E; reflexivity | exact Nv].
Qed.

Lemma last_char_suffix (P : N -> Prop) (u v : pystr) :
  last_char_is P (u ++ v) -> v <> [] -> last_char_is P v.
Proof.
  intros H Nv q x E. apply (H (u ++ q) x). rewrite E, app_assoc. reflexivity.
Qed.

Lemma sub_year_token (p ws ds : pystr) :
  Forall (fun c => is_space c = true) ws ->
  Forall (fun c => is_digit c = true) ds ->
  2 <= List.length ds <= 4 ->
  last_char_is (fun x => is_space x = false) p ->
  (ws = [] -> last_char_is (fun x => is_digit x = false) p) ->
  sub_year (p ++ ws ++ ds) = p.
Proof.
  intros Fw Fd L Sp Dg.
  rewrite (sub_year_app p (ws ++ ds) [] (match_year_at_token ws ds Fw Fd L)).
  - apply app_nil_r.
  - intros u v -> Nv. apply match_year_not_before; try assumption; try lia.
    + apply (last_char_suffix _ u v Sp Nv).
    + intros E. apply (last_char_suffix _ u v (Dg E) Nv).
Qed.

Lemma last_two (cs : pystr) :
  2 <= List.length cs -> exists q a b, cs = q ++ [a; b].
Proof.
  intros L.
  destruct (snoc_cases cs) as [-> | [q1 [b ->]]]; [simpl in L; lia|].
  rewrite length_app in L. simpl in L.
  destruct (snoc_cases q1) as [-> | [q [a ->]]]; [simpl in L; lia|].
  exists q, a, b. rewrite <- app_assoc. reflexivity.
Qed.

(** Where the pattern matches, two digits stand before the end. *)
Lemma match_year_inv (v r : pystr) :
  match_year v = Some r ->
  exists q a b,
    v = q ++ [a; b] ++ r
    /\ is_digit a = true /\ is_digit b = true
    /\ (r = [] \/ r = [10%N]).
Proof.
  unfold match_year.
  destruct (lstrip_decompose v) as [ws [Ev _]].
  destruct (span_digits_spec (lstrip v)) as [cs [Ec [Lc Fc]]].
  destruct (span_digits (lstrip v)) as [ds r']. cbn [fst snd] in *.
  destruct ((2 <=? List.length ds) && (List.length ds <=? 4)
            && (pystr_eqb r' [] || pystr_eqb r' [10%N])) eqn:C; [|discriminate].
  intros E. injection E as <-.
  apply andb_true_iff in C. destruct C as [C R].
  apply andb_true_iff in C. destruct C as [L1 _]. apply Nat.leb_le in L1.
  rewrite <- Lc in L1. destruct (last_two cs L1) as [q [a [b ->]]].
  exists (ws ++ q), a, b.
  apply Forall_app in Fc. destruct Fc as [_ Fab].
  inversion Fab as [|? ? Da Fb]; subst. inversion Fb as [|? ? Db _]; subst.
  split; [|split; [exact Da | split; [exact Db|]]].
  - rewrite Ev at 1. rewrite Ec, <- !app_assoc. reflexivity.
  - apply orb_true_iff in R. rewrite !pystr_eqb_eq in R. exact R.
Qed.

Lemma sub_year_no_match (s : pystr) :
  (forall u v, s = u ++ v -> match_year v = None) -> sub_year s = s.
Proof.
  induction s as [|c s IH]; intros Miss.
  - rewrite sub_year_unfold, (Miss [] [] eq_refl). reflexivity.
  - rewrite sub_year_unfold, (Miss [] (c :: s) eq_refl). f_equal.
    apply IH. intros u v E. apply (Miss (c :: u) v). rewrite E. reflexivity.
Qed.

Lemma sub_year_without_digits (s : pystr) :
  ~ ends_in_two_digits s -> ~ ends_in_two_digits_and_newline s ->
  sub_year s = s.
Proof.
  intros No NoNl. apply sub_year_no_match. intros u v E.
  destruct (match_year v) as [r|] eqn:M; [|reflexivity].
  exfalso.
  destruct (match_year_inv v r M) as [q [a [b [Ev [Da [Db [-> | ->]]]]]]].
  - apply No. exists (u ++ q), a, b.
    split; [|split; [exact Da | exact Db]].
    rewrite E, Ev, app_nil_r, <- app_assoc. reflexivity.
  - apply NoNl. exists ((u ++ q) ++ [a; b]).
    split; [rewrite E, Ev, <- !app_assoc; reflexivity|].
    exists (u ++ q), a, b. split; [reflexivity|]. split; [exact Da | exact Db].
Qed.

Lemma span_digits_before_nondigit (ds : pystr) (z : N) (t : pystr) :
  Forall (fun c => is_digit c = true) ds -> is_digit z = false ->
  snd (span_digits (ds ++ z :: t)) = z :: t
  /\ List.length (fst (span_digits (ds ++ z :: t))) = List.length ds.
Proof.
  intros F Nz. induction F as [|c ds D _ [IH1 IH2]]; simpl.
  - unfold is_digit in Nz. destruct (decimal_value z); [discriminate|].
    split; reflexivity.
  - unfold is_digit in D. destruct (decimal_value c); [|discriminate].
    destruct (span_digits (ds ++ z :: t)) as [vs r]. cbn [fst snd] in *.
    split; [exact IH1 | simpl; congruence].
Qed.

(** The pattern also matches before one final newline. *)
Lemma match_year_at_token_nl (ws ds : pystr) :
  Forall (fun c => is_space c = true) ws ->
  Forall (fun c => is_digit c = true) ds ->
  2 <= List.length ds <= 4 ->
  match_year (ws ++ ds ++ [10%N]) = Some [10%N].
Proof.
  intros Fw Fd L. unfold match_year. rewrite (lstrip_spaces ws _ Fw).
  assert (Ld : lstrip (ds ++ [10%N]) = ds ++ [10%N]).
  { destruct ds as [|d ds]; [simpl in L; lia|].
    apply lstrip_fixed, is_digit_not_space. inversion Fd; assumption. }
  rewrite Ld.
  destruct (span_digits_before_nondigit ds 10 [] Fd eq_refl) as [R Len].
  destruct (span_digits (ds ++ [10%N])) as [vs r]. cbn [fst snd] in *.
  subst r. rewrite Len. destruct L as [L1 L2].
  apply Nat.leb_le in L1. apply Nat.leb_le in L2. rewrite L1, L2. reflexivity.
Qed.

Lemma match_year_not_before_nl (v ws ds : pystr) :
  v <> [] ->
  Forall (fun c => is_space c = true) ws ->
  2 <= List.length ds ->
  last_char_is (fun x => is_space x = false) v ->
  (ws = [] -> last_char_is (fun x => is_digit x = false) v) ->
  match_year (v ++ ws ++ ds ++ [10%N]) = None.
Proof.
  intros Nv Fw L Sp Dg.
  assert (L' : 2 <= List.length (ds ++ [10%N])) by (rewrite length_app; lia).
  apply (match_year_not_before v ws (ds ++ [10%N]) Nv Fw L' Sp Dg).
Qed.

Lemma sub_year_token_nl (p ws ds : pystr) :
  Forall (fun c => is_space c = true) ws ->
  Forall (fun c => is_digit c = true) ds ->
  2 <= List.length ds <= 4 ->
  last_char_is (fun x => is_space x = false) p ->
  (ws = [] -> last_char_is (fun x => is_digit x = false) p) ->
  sub_year (p ++ ws ++ ds ++ [10%N]) = p ++ [10%N].
Proof.
  intros Fw Fd L Sp Dg.
  apply (sub_year_app p (ws ++ ds ++ [10%N]) [10%N]
           (match_year_at_token_nl ws ds Fw Fd L)).
  intros u v -> Nv. apply match_year_not_before_nl; try assumption; try lia.
  - apply (last_char_suffix _ u v Sp Nv).
  - intros E. apply (last_char_suffix _ u v (Dg E) Nv).
Qed.

Lemma lstrip_app_nonempty (s t : pystr) :
  lstrip s <> [] -> lstrip (s ++ t) = lstrip s ++ t.
Proof.
  induction s as [|c s IH]; simpl; [contradiction|].
  destruct (is_space c); [exact IH | reflexivity].
Qed.

(** Trimming drops a final white space. *)
Lemma strip_snoc_space (s : pystr) (x : N) :
  is_space x = true -> strip (s ++ [x]) = strip s.
Proof.
  intros Sx. unfold strip, rstrip.
  destruct (lstrip s) as [|c s'] eqn:E.
  - destruct (lstrip_decompose s) as [ws [Es Fw]]. rewrite E, app_nil_r in Es.
    subst ws. rewrite (lstrip_spaces s [x] Fw). simpl. rewrite Sx. reflexivity.
  - rewrite lstrip_app_nonempty by (rewrite E; discriminate).
    rewrite E, rev_app_distr. simpl rev at 1. simpl app at 1.
    cbn [lstrip]. rewrite Sx. reflexivity.
Qed.

Lemma digits_or_not (w : pystr) :
  Forall (fun c => is_digit c = true) w
  \/ exists y z t, w = y ++ z :: t /\ is_digit z = false.
Proof.
  induction w as [|c w [F | [y [z [t [E Nz]]]]]].
  - left. constructor.
  - destruct (is_digit c) eqn:D.
    + left. constructor; assumption.
    + right. exists [], c, w. split; [reflexivity | exact D].
  - right. exists (c :: y), z, t. split; [rewrite E; reflexivity | exact Nz].
Qed.

Lemma match_year_many_digits (s : pystr) :
  5 <= List.length (fst (span_digits (lstrip s))) -> match_year s = None.
Proof.
  unfold match_year. destruct (span_digits (lstrip s)) as [ds r]. cbn [fst].
  intros L. replace (List.length ds <=? 4) with false
    by (symmetry; apply Nat.leb_gt; lia).
  rewrite andb_false_r. reflexivity.
Qed.

(** Before the last four digits of a longer run the pattern does not
    match: it would have to take five digits or more. *)
Lemma match_year_not_in_long_run (v ds : pystr) (d : N) :
  is_digit d = true ->
  Forall (fun c => is_digit c = true) ds -> List.length ds = 4 ->
  match_year ((v ++ [d]) ++ ds) = None.
Proof.
  intros Dd Fd L. rewrite <- app_assoc. simpl.
  destruct (lstrip_before_nonspace v d ds (is_digit_not_space d Dd)) as [w Ew].
  destruct (digits_or_not (w ++ [d])) as [F | [y [z [t [E Nz]]]]].
  - apply match_year_many_digits. rewrite Ew.
    replace (w ++ d :: ds) with ((w ++ [d]) ++ ds)
      by (rewrite <- app_assoc; reflexivity).
    assert (Fa : Forall (fun c => is_digit c = true) ((w ++ [d]) ++ ds)).
    { apply Forall_app. split; assumption. }
    destruct (span_digits_all _ Fa) as [_ Len]. rewrite Len.
    rewrite !length_app. simpl. lia.
  - apply match_year_long_rest. rewrite Ew.
    replace (w ++ d :: ds) with (y ++ z :: (t ++ ds)).
    + pose proof (span_digits_stops y z (t ++ ds) Nz) as S.
      rewrite length_app in S. lia.
    + change (y ++ z :: t ++ ds) with (y ++ (z :: t) ++ ds).
      rewrite app_assoc, <- E, <- app_assoc. reflexivity.
Qed.

Lemma sub_year_long_run (q ds : pystr) (d : N) :
  is_digit d = true ->
  Forall (fun c => is_digit c = true) ds -> List.length ds = 4 ->
  sub_year ((q ++ [d]) ++ ds) = q ++ [d].
Proof.
  intros Dd Fd L.
  assert (M : match_year ds = Some []).
  { apply (match_year_at_token [] ds); [constructor | exact Fd | lia]. }
  rewrite (sub_year_app (q ++ [d]) ds [] M); [apply app_nil_r|].
  intros u v E Nv.
  destruct (snoc_cases v) as [-> | [v0 [x ->]]]; [contradiction|].
  rewrite app_assoc in E. apply app_inj_tail in E. destruct E as [_ <-].
  apply match_year_not_in_long_run; assumption.
Qed.

(** C7, as amended.  The brand is the stem of the file name without its
    final run of two to four digits and the white space before that run,
    trimmed; the white space may be absent, and the run may be followed by
    one final newline.  Of a final run of five digits or more only the last
    four are removed.  So [LACTEOS DEL VALLE 2025.xlsx] gives
    [LACTEOS DEL VALLE] and [ALPINA.xls] gives [ALPINA].  A stem that ends
    neither in two digits nor in two digits and a final newline is only
    trimmed. *)
Theorem brand_strips_trailing_digits :
  extract_brand_from_filename (py "LACTEOS DEL VALLE 2025.xlsx")
  = py "LACTEOS DEL VALLE"
  /\ extract_brand_from_filename (py "ALPINA.xls") = py "ALPINA"
  /\ (forall filename p ws ds,
      path_stem filename = p ++ ws ++ ds ->
      Forall (fun c => is_space c = true) ws ->
      Forall (fun c => is_digit c = true) ds ->
      2 <= List.length ds <= 4 ->
      last_char_is (fun x => is_space x = false) p ->
      (ws = [] -> last_char_is (fun x => is_digit x = false) p) ->
      extract_brand_from_filename filename = strip p)
  /\ (forall filename p ws ds,
      path_stem filename = p ++ ws ++ ds ++ [10%N] ->
      Forall (fun c => is_space c = true) ws ->
      Forall (fun c => is_digit c = true) ds ->
      2 <= List.length ds <= 4 ->
      last_char_is (fun x => is_space x = false) p ->
      (ws = [] -> last_char_is (fun x => is_digit x = false) p) ->
      extract_brand_from_filename filename = strip p)
  /\ (forall filename q d ds,
      path_stem filename = (q ++ [d]) ++ ds ->
      is_digit d = true ->
      Forall (fun c => is_digit c = true) ds ->
      List.length ds = 4 ->
      extract_brand_from_filename filename = strip (q ++ [d]))
  /\ (forall filename,
      ~ ends_in_two_digits (path_stem filename) ->
      ~ ends_in_two_digits_and_newline (path_stem filename) ->
      extract_brand_from_filename filename = strip (path_stem filename)).
Proof.
  split; [reflexivity|]. split; [reflexivity|].
  split; [|split; [|split]].
  - intros filename p ws ds E Fw Fd L Sp Dg.
    unfold extract_brand_from_filename.
    rewrite E, (sub_year_token p ws ds Fw Fd L Sp Dg). reflexivity.
  - intros filename p ws ds E Fw Fd L Sp Dg.
    unfold extract_brand_from_filename.
    rewrite E, (sub_year_token_nl p ws ds Fw Fd L Sp Dg).
    apply strip_snoc_space. reflexivity.
  - intros filename q d ds E Dd Fd L.
    unfold extract_brand_from_filename.
    rewrite E, (sub_year_long_run q ds d Dd Fd L). reflexivity.
  - intros filename No NoNl. unfold extract_brand_from_filename.
    rewrite (sub_year_without_digits _ No NoNl). reflexivity.
Qed.

(** * Further properties *)

(** ** find_header_row: the row it returns *)

Lemma find_header_from_sound (rs : list (list cell)) :
  forall idx i,
    find_header_from idx rs = Some i ->
    exists k row,
      i = idx + k
      /\ nth_error rs k = Some row
      /\ header_like row
      /\ forall j row', j < k -> nth_error rs j = Some row' -> ~ header_like row'.
Proof.
  induction rs as [|r rs IH]; intros idx i E; simpl in E; [discriminate|].
  destruct (is_header_str (row_str r)) eqn:H.
  - injection E as <-. exists 0, r.
    split; [lia|]. split; [reflexivity|].
    split; [apply is_header_str_spec, H|]. intros j row' L. lia.
  - destruct (IH (S idx) i E) as [k [row [Ei [N [Hr Before]]]]].
    exists (S k), row. split; [lia|]. split; [exact N|]. split; [exact Hr|].
    intros [|j] row' L Nj; simpl in Nj.
    + injection Nj as <-. intros Hl. apply is_header_str_spec in Hl. congruence.
    + apply (Before j row'); [lia | exact Nj].
Qed.

Lemma find_header_from_none_inv (rs : list (list cell)) :
  forall idx,
    find_header_from idx rs = None ->
    forall row, In row rs -> ~ header_like row.
Proof.
  induction rs as [|r rs IH]; intros idx E row I; [destruct I|].
  simpl in E. destruct (is_header_str (row_str r)) eqn:H; [discriminate|].
  destruct I as [<- | I].
  - intros Hl. apply is_header_str_spec in Hl. congruence.
  - apply (IH (S idx) E row I).
Qed.

(** X1.  The index that [find_header_row] returns is the index of a row of
    the frame that is header-like and has no header-like row above it;
    otherwise the frame has no header-like row at all and the index is 0.
    So the index never points past the end of a frame that has rows. *)
Theorem find_header_row_sound (df : frame) :
  (exists row,
      nth_error (rows df) (find_header_row df) = Some row
      /\ header_like row
      /\ forall j row', j < find_header_row df ->
                        nth_error (rows df) j = Some row' -> ~ header_like row')
  \/ (find_header_row df = 0
      /\ forall row, In row (rows df) -> ~ header_like row).
Proof.
  unfold find_header_row.
  destruct (find_header_from 0 (rows df)) as [i|] eqn:E.
  - left. destruct (find_header_from_sound (rows df) 0 i E)
      as [k [row [Ei [N [H Before]]]]].
    simpl in Ei. subst k. exists row. repeat split; assumption.
  - right. split; [reflexivity|].
    apply (find_header_from_none_inv (rows df) 0 E).
Qed.

(** A word without a space that occurs in two texts joined by a space
    occurs in one of them. *)
Lemma substring_across_space (kw a b : pystr) :
  ~ In 32%N kw ->
  substring kw (a ++ 32%N :: b) -> substring kw a \/ substring kw b.
Proof.
  intros No [before [after E]]. symmetry in E.
  apply app_eq_app in E. destruct E as [l [[Eb E] | [Ea E]]].
  - destruct l as [|y l]; simpl in E.
    + destruct kw as [|x kw]; [left; exists [], a; reflexivity|].
      injection E as <- _. exfalso. apply No. left. reflexivity.
    + injection E as _ ->. right. exists l, after. reflexivity.
  - apply app_eq_app in E. destruct E as [l2 [[Ek E] | [El E]]].
    + destruct l2 as [|y l2]; simpl in E.
      * rewrite app_nil_r in Ek. subst l. left. exists before, [].
        rewrite app_nil_r. exact Ea.
      * injection E as <- _. exfalso. apply No. rewrite Ek.
        apply in_or_app. right. left. reflexivity.
    + left. exists before, l2. rewrite Ea, El. reflexivity.
Qed.

Lemma substring_join_inv (kw : pystr) (l : list pystr) :
  kw <> [] -> ~ In 32%N kw ->
  substring kw (join (py " ") l) -> exists s, In s l /\ substring kw s.
Proof.
  intros Ne No. induction l as [|s l IH]; intros H.
  - destruct H as [before [after E]].
    destruct before; [|discriminate]. destruct kw; [contradiction | discriminate].
  - destruct l as [|s' l].
    + exists s. split; [left; reflexivity | exact H].
    + change (join (py " ") (s :: s' :: l))
        with (s ++ 32%N :: join (py " ") (s' :: l)) in H.
      destruct (substring_across_space kw s _ No H) as [Hs | Hr].
      * exists s. split; [left; reflexivity | exact Hs].
      * destruct (IH Hr) as [t [I Ht]]. exists t. split; [right; exact I | exact Ht].
Qed.

Lemma substring_join (kw s : pystr) (l : list pystr) :
  In s l -> substring kw s -> substring kw (join (py " ") l).
Proof.
  intros I Hs. induction l as [|t l IH]; [destruct I|].
  destruct l as [|t' l].
  - destruct I as [-> | []]. exact Hs.
  - change (join (py " ") (t :: t' :: l))
      with (t ++ 32%N :: join (py " ") (t' :: l)).
    destruct I as [-> | I].
    + destruct Hs as [before [after ->]].
      exists before, (after ++ 32%N :: join (py " ") (t' :: l)).
      rewrite <- !app_assoc. reflexivity.
    + destruct (IH I) as [b' [a' E]]. rewrite E.
      exists (t ++ 32%N :: b'), a'. rewrite <- app_assoc. reflexivity.
Qed.

Lemma row_str_keyword (kw : pystr) (row : list cell) :
  kw <> [] -> ~ In 32%N kw ->
  (substring kw (row_str row)
   <-> exists c, In c row /\ notna c = true /\ substring kw (upper (py_str c))).
Proof.
  intros Ne No. unfold row_str. split.
  - intros H. destruct (substring_join_inv kw _ Ne No H) as [s [I Hs]].
    apply in_map_iff in I. destruct I as [c [<- I]].
    apply filter_In in I. destruct I as [I Nn].
    exists c. repeat split; assumption.
  - intros [c [I [Nn Hs]]].
    apply (substring_join kw (upper (py_str c))); [|exact Hs].
    apply in_map_iff. exists c. split; [reflexivity|].
    apply filter_In. split; assumption.
Qed.

(** X2.  A row is header-like exactly when one of its cells that is not
    missing holds [CÓDIGO] or [CODIGO] in its uppercased text: joining the
    cells with spaces neither hides a label nor makes one up across two
    cells. *)
Theorem header_like_iff_cell (row : list cell) :
  header_like row
  <-> exists c,
      In c row /\ notna c = true
      /\ (substring (py "CÓDIGO") (upper (py_str c))
          \/ substring (py "CODIGO") (upper (py_str c))).
Proof.
  assert (N1 : py "CÓDIGO" <> [] /\ ~ In 32%N (py "CÓDIGO")).
  { split; [discriminate|]. intros H.
    repeat (destruct H as [H | H]; [discriminate|]). destruct H. }
  assert (N2 : py "CODIGO" <> [] /\ ~ In 32%N (py "CODIGO")).
  { split; [discriminate|]. intros H.
    repeat (destruct H as [H | H]; [discriminate|]). destruct H. }
  unfold header_like.
  rewrite (row_str_keyword _ row (proj1 N1) (proj2 N1)).
  rewrite (row_str_keyword _ row (proj1 N2) (proj2 N2)).
  split.
  - intros [[c [I [Nn H]]] | [c [I [Nn H]]]]; exists c;
      (split; [exact I | split; [exact Nn|]]); [left | right]; exact H.
  - intros [c [I [Nn [H | H]]]]; [left | right]; exists c;
      (split; [exact I | split; [exact Nn | exact H]]).
Qed.

(** ** extract_brand_from_filename: what the pattern removes *)

Lemma sub_year_cases (s : pystr) :
  sub_year s = s
  \/ exists a t r, s = a ++ t /\ match_year t = Some r /\ sub_year s = a ++ r.
Proof.
  induction s as [|c s IH]; rewrite sub_year_unfold.
  - destruct (match_year []) as [r|] eqn:M; [|left; reflexivity].
    right. exists [], [], r. repeat split. exact M.
  - destruct (match_year (c :: s)) as [r|] eqn:M.
    + right. exists [], (c :: s), r. repeat split. exact M.
    + destruct IH as [E | [a [t [r [E [Mt Es]]]]]].
      * left. rewrite E. reflexivity.
      * right. exists (c :: a), t, r.
        split; [rewrite E; reflexivity|]. split; [exact Mt|].
        rewrite Es. reflexivity.
Qed.

Lemma match_year_shape (t r : pystr) :
  match_year t = Some r ->
  exists ws ds,
    t = ws ++ ds ++ r
    /\ Forall (fun c => is_space c = true) ws
    /\ Forall (fun c => is_digit c = true) ds
    /\ 2 <= List.length ds <= 4
    /\ (r = [] \/ r = [10%N]).
Proof.
  unfold match_year.
  destruct (lstrip_decompose t) as [ws [Et Fw]].
  destruct (span_digits_spec (lstrip t)) as [cs [Ec [Lc Fc]]].
  destruct (span_digits (lstrip t)) as [ds r']. cbn [fst snd] in *.
  destruct ((2 <=? List.length ds) && (List.length ds <=? 4)
            && (pystr_eqb r' [] || pystr_eqb r' [10%N])) eqn:C; [|discriminate].
  intros E. injection E as <-.
  apply andb_true_iff in C. destruct C as [C R].
  apply andb_true_iff in C. destruct C as [L1 L2].
  apply Nat.leb_le in L1. apply Nat.leb_le in L2.
  exists ws, cs. split; [rewrite Et at 1; rewrite Ec; reflexivity|].
  split; [exact Fw|]. split; [exact Fc|]. split; [lia|].
  apply orb_true_iff in R. rewrite !pystr_eqb_eq in R. exact R.
Qed.

(** X3.  The substitution of line 22 leaves a name as it is, or removes
    from its end one run of white space followed by two to four digits,
    keeping a final newline: it never removes a character that is neither
    white space nor a digit, and never more than four digits. *)
Theorem sub_year_removes_only_year_token (s : pystr) :
  sub_year s = s
  \/ exists p ws ds e,
      s = p ++ ws ++ ds ++ e
      /\ Forall (fun c => is_space c = true) ws
      /\ Forall (fun c => is_digit c = true) ds
      /\ 2 <= List.length ds <= 4
      /\ (e = [] \/ e = [10%N])
      /\ sub_year s = p ++ e.
Proof.
  destruct (sub_year_cases s) as [E | [a [t [r [E [M Es]]]]]]; [left; exact E|].
  right. destruct (match_year_shape t r M) as [ws [ds [Et [Fw [Fd [L R]]]]]].
  exists a, ws, ds, r.
  split; [rewrite E, Et; reflexivity|].
  split; [exact Fw|]. split; [exact Fd|]. split; [exact L|].
  split; [exact R | exact Es].
Qed.

(** ** Paths: the stem of a file name *)

Lemma split_on_no_sep (sep : N) (s : pystr) :
  ~ In sep s -> split_on sep s = [s].
Proof.
  induction s as [|c s IH]; intros No; simpl; [reflexivity|].
  destruct (N.eqb_spec c sep) as [-> | NE].
  - exfalso. apply No. left. reflexivity.
  - rewrite IH by (intros I; apply No; right; exact I). reflexivity.
Qed.

Lemma split_on_nonempty (sep : N) (s : pystr) : split_on sep s <> [].
Proof.
  induction s as [|c s IH]; simpl; [discriminate|].
  destruct (N.eqb c sep); [discriminate|].
  destruct (split_on sep s); [contradiction | discriminate].
Qed.

Lemma split_on_app (sep : N) (a b : pystr) :
  split_on sep (a ++ sep :: b) = split_on sep a ++ split_on sep b.
Proof.
  induction a as [|c a IH]; simpl.
  - rewrite N.eqb_refl. reflexivity.
  - destruct (N.eqb c sep); [rewrite IH; reflexivity|].
    rewrite IH.
    pose proof (split_on_nonempty sep a) as Ne.
    destruct (split_on sep a); [contradiction | reflexivity].
Qed.

Lemma rfind_dot_app (a b : pystr) :
  forall i found,
    rfind_dot (a ++ b) i found
    = rfind_dot b (i + List.length a) (rfind_dot a i found).
Proof.
  induction a as [|c a IH]; intros i found; simpl.
  - rewrite Nat.add_0_r. reflexivity.
  - rewrite IH. f_equal. lia.
Qed.

Lemma rfind_dot_none (s : pystr) :
  forall i found, ~ In 46%N s -> rfind_dot s i found = found.
Proof.
  induction s as [|c s IH]; intros i found No; simpl; [reflexivity|].
  rewrite IH by (intros I; apply No; right; exact I).
  destruct (N.eqb_spec c 46) as [-> | NE]; [|reflexivity].
  exfalso. apply No. left. reflexivity.
Qed.

Lemma path_name_plain (name_ : pystr) :
  name_ <> [] -> name_ <> [46%N] -> ~ In 47%N name_ -> path_name name_ = name_.
Proof.
  intros Ne Nd No. unfold path_name. rewrite (split_on_no_sep 47 name_ No).
  cbn [filter]. apply pystr_eqb_neq in Ne. apply pystr_eqb_neq in Nd.
  rewrite Ne, Nd. reflexivity.
Qed.

Lemma path_name_last (dir name_ : pystr) :
  name_ <> [] -> name_ <> [46%N] -> ~ In 47%N name_ ->
  path_name (dir ++ 47%N :: name_) = name_.
Proof.
  intros Ne Nd No. unfold path_name.
  rewrite split_on_app, filter_app, (split_on_no_sep 47 name_ No).
  cbn [filter]. apply pystr_eqb_neq in Ne. apply pystr_eqb_neq in Nd.
  rewrite Ne, Nd. cbn [orb negb]. apply last_last.
Qed.

(** X4.  The stem of a file name is the name without its extension: for a
    name made of a base that is not empty, a period and an extension that is
    not empty and holds no period, the stem is the base, whatever directory
    stands before the name.  A name whose only period is its first character
    has no extension. *)
Theorem path_stem_strips_extension (base ext : pystr) :
  base <> [] -> ext <> [] ->
  ~ In 47%N base -> ~ In 47%N ext -> ~ In 46%N ext ->
  path_stem (base ++ 46%N :: ext) = base
  /\ (forall dir, path_stem (dir ++ 47%N :: base ++ 46%N :: ext) = base)
  /\ path_stem (46%N :: ext) = 46%N :: ext.
Proof.
  intros Nb Ne Sb Se De.
  assert (Stem : forall name_,
             path_name name_ = base ++ 46%N :: ext -> path_stem name_ = base).
  { intros name_ E. unfold path_stem. rewrite E.
    rewrite rfind_dot_app. cbn [rfind_dot]. rewrite N.eqb_refl.
    rewrite (rfind_dot_none ext _ _ De). simpl Nat.add.
    rewrite length_app. cbn [List.length].
    destruct base as [|b base]; [contradiction|].
    destruct ext as [|x ext]; [contradiction|].
    cbn [List.length].
    replace (0 <? S (List.length base)) with true
      by (symmetry; apply Nat.ltb_lt; lia).
    replace (S (List.length base)
             <? S (List.length base) + S (S (List.length ext)) - 1) with true
      by (symmetry; apply Nat.ltb_lt; lia).
    cbn [andb].
    change (S (List.length base)) with (List.length (b :: base)).
    rewrite firstn_app, Nat.sub_diag, firstn_all. cbn [firstn].
    apply app_nil_r. }
  assert (Nm : base ++ 46%N :: ext <> [] /\ base ++ 46%N :: ext <> [46%N]
               /\ ~ In 47%N (base ++ 46%N :: ext)).
  { split; [destruct base; discriminate|]. split.
    - destruct base as [|b [|b' base]]; try contradiction; discriminate.
    - intros I. apply in_app_or in I. destruct I as [I | [I | I]];
        [apply Sb, I | discriminate I | apply Se, I]. }
  destruct Nm as [N1 [N2 N3]].
  split; [apply Stem, path_name_plain; assumption|].
  split; [intros dir; apply Stem, path_name_last; assumption|].
  unfold path_stem. rewrite path_name_plain.
  - cbn [rfind_dot]. rewrite N.eqb_refl.
    rewrite (rfind_dot_none ext _ _ De). reflexivity.
  - discriminate.
  - destruct ext; [contradiction | discriminate].
  - intros [I | I]; [discriminate I | apply Se, I].
Qed.

(** ** clean_price: texts *)

Lemma span_digits_count (s : pystr) :
  count_occ N.eq_dec (snd (span_digits s)) 46%N = count_occ N.eq_dec s 46%N.
Proof.
  induction s as [|c s IH]; [reflexivity|].
  cbn [span_digits]. destruct (decimal_value c) eqn:D; [|reflexivity].
  destruct (span_digits s) as [ds r]. cbn [snd] in *.
  rewrite IH. destruct (N.eq_dec c 46) as [-> | NE].
  - discriminate D.
  - rewrite count_occ_cons_neq by exact NE. reflexivity.
Qed.

Lemma span_digits_no_digit (s : pystr) :
  (forall c, In c s -> is_digit c = false) ->
  fst (span_digits s) = []
  /\ (forall r, snd (span_digits s) = 46%N :: r -> fst (span_digits r) = []).
Proof.
  intros No. destruct s as [|c s]; [split; [reflexivity | discriminate]|].
  cbn [span_digits]. pose proof (No c (or_introl eq_refl)) as Nc.
  unfold is_digit in Nc. destruct (decimal_value c); [discriminate|].
  split; [reflexivity|]. cbn [snd]. intros r E. injection E as _ <-.
  destruct s as [|d s]; [reflexivity|].
  cbn [span_digits]. pose proof (No d (or_intror (or_introl eq_refl))) as Nd.
  unfold is_digit in Nd. destruct (decimal_value d); [discriminate | reflexivity].
Qed.

Lemma float_of_cleaned_no_digit (s : pystr) :
  (forall c, In c s -> is_digit c = false) -> float_of_cleaned s = None.
Proof.
  intros No. destruct (span_digits_no_digit s No) as [Ip Fp].
  unfold float_of_cleaned.
  destruct (span_digits s) as [ip r]. cbn [fst snd] in *. subst ip.
  destruct r as [|c r']; [reflexivity|].
  destruct (N.eqb_spec c 46) as [-> | NE]; [|reflexivity].
  specialize (Fp r' eq_refl).
  destruct (span_digits r') as [fp r'']. cbn [fst] in Fp. subst fp.
  destruct r''; reflexivity.
Qed.

Lemma float_of_cleaned_two_periods (s : pystr) :
  2 <= count_occ N.eq_dec s 46%N -> float_of_cleaned s = None.
Proof.
  intros C. rewrite <- span_digits_count in C.
  unfold float_of_cleaned.
  destruct (span_digits s) as [ip r]. cbn [snd] in C.
  destruct r as [|c r']; [simpl in C; lia|].
  destruct (N.eqb_spec c 46) as [-> | NE]; [|reflexivity].
  rewrite count_occ_cons_eq in C by reflexivity.
  rewrite <- span_digits_count in C.
  destruct (span_digits r') as [fp r'']. cbn [snd] in C.
  destruct r''; [simpl in C; lia | reflexivity].
Qed.

Lemma count_occ_keep (s : pystr) (x : N) :
  x = 46%N \/ x = 44%N ->
  count_occ N.eq_dec (keep_price_chars s) x = count_occ N.eq_dec s x.
Proof.
  intros Hx. unfold keep_price_chars.
  induction s as [|c s IH]; [reflexivity|].
  cbn [filter]. destruct (N.eq_dec c x) as [-> | NE].
  - assert (K : is_digit x || N.eqb x 46 || N.eqb x 44 = true).
    { destruct Hx as [-> | ->]; reflexivity. }
    rewrite K, !count_occ_cons_eq, IH by reflexivity. reflexivity.
  - rewrite (count_occ_cons_neq N.eq_dec s NE).
    destruct (is_digit c || N.eqb c 46 || N.eqb c 44); [|exact IH].
    rewrite (count_occ_cons_neq N.eq_dec _ NE). exact IH.
Qed.

Lemma count_occ_commas_to_periods (s : pystr) :
  count_occ N.eq_dec (commas_to_periods s) 46%N = separators s.
Proof.
  unfold commas_to_periods, separators.
  induction s as [|c s IH]; [reflexivity|].
  cbn [map]. destruct (N.eqb_spec c 44) as [-> | N44].
  - rewrite count_occ_cons_eq by reflexivity.
    rewrite (count_occ_cons_neq N.eq_dec s (x := 44%N) (y := 46%N)) by discriminate.
    rewrite (count_occ_cons_eq N.eq_dec s (x := 44%N) (y := 44%N)) by reflexivity.
    rewrite IH. lia.
  - rewrite (count_occ_cons_neq N.eq_dec s (x := c) (y := 44%N)) by exact N44.
    destruct (N.eq_dec c 46) as [-> | N46].
    + rewrite !count_occ_cons_eq by reflexivity. rewrite IH. lia.
    + rewrite !(count_occ_cons_neq N.eq_dec _ N46). exact IH.
Qed.

(** X5.  A text price with no digit in it, or with two or more commas and
    periods, is read as 0.0: a thousands separator beside a decimal
    separator makes the whole price 0.0, whatever its digits. *)
Theorem clean_price_text_zero (s : pystr) :
  (forall c, In c s -> is_digit c = false) \/ 2 <= separators s ->
  clean_price (Scalar (CStr s)) = Ok float_zero.
Proof.
  intros H. rewrite clean_price_text.
  assert (F : float_of_cleaned (commas_to_periods (keep_price_chars s)) = None).
  { destruct H as [No | Two].
    - apply float_of_cleaned_no_digit. intros c I.
      unfold commas_to_periods in I. apply in_map_iff in I.
      destruct I as [d [E I]]. unfold keep_price_chars in I.
      apply filter_In in I. destruct I as [I _].
      destruct (N.eqb d 44); [subst c; reflexivity|].
      subst c. apply No, I.
    - apply float_of_cleaned_two_periods.
      rewrite count_occ_commas_to_periods. unfold separators.
      rewrite (count_occ_keep s 46 (or_introl eq_refl)).
      rewrite (count_occ_keep s 44 (or_intror eq_refl)). exact Two. }
  rewrite F. reflexivity.
Qed.

Lemma keep_price_chars_idem (s : pystr) :
  keep_price_chars (keep_price_chars s) = keep_price_chars s.
Proof.
  unfold keep_price_chars. induction s as [|c s IH]; [reflexivity|].
  cbn [filter]. destruct (is_digit c || N.eqb c 46 || N.eqb c 44) eqn:K;
    [|exact IH].
  cbn [filter]. rewrite K, IH. reflexivity.
Qed.

Lemma filter_map_commute {A : Type} (p : A -> bool) (g : A -> A) (l : list A) :
  (forall c, p (g c) = p c) -> filter p (map g l) = map g (filter p l).
Proof.
  intros H. induction l as [|c l IH]; [reflexivity|].
  cbn [map filter]. rewrite H. destruct (p c); cbn [map]; rewrite IH; reflexivity.
Qed.

Lemma keep_commas_to_periods (s : pystr) :
  commas_to_periods (keep_price_chars (commas_to_periods s))
  = commas_to_periods (keep_price_chars s).
Proof.
  unfold keep_price_chars, commas_to_periods.
  rewrite filter_map_commute.
  - rewrite map_map. apply map_ext. intros c.
    destruct (N.eqb c 44) eqn:Q; [reflexivity | rewrite Q; reflexivity].
  - intros c. destruct (N.eqb c 44) eqn:Q; [|rewrite Q; reflexivity].
    apply N.eqb_eq in Q. subst c. reflexivity.
Qed.

Lemma keep_price_chars_drop (a b : pystr) (c : N) :
  is_digit c = false -> c <> 46%N -> c <> 44%N ->
  keep_price_chars (a ++ c :: b) = keep_price_chars (a ++ b).
Proof.
  intros D P C. unfold keep_price_chars. rewrite !filter_app. cbn [filter].
  apply N.eqb_neq in P. apply N.eqb_neq in C. rewrite D, P, C. reflexivity.
Qed.

(** X6.  The price read from a text depends only on its digits, commas and
    periods, and a comma counts as a period: the price of a text is the
    price of the text with commas written as periods, and of the text
    without any one character that is none of the three, such as a minus
    sign, a currency symbol or a space. *)
Theorem clean_price_text_ignores_decoration (s : pystr) :
  clean_price (Scalar (CStr s)) = clean_price (Scalar (CStr (keep_price_chars s)))
  /\ clean_price (Scalar (CStr s))
     = clean_price (Scalar (CStr (commas_to_periods s)))
  /\ (forall a b c,
      s = a ++ c :: b ->
      is_digit c = false -> c <> 46%N -> c <> 44%N ->
      clean_price (Scalar (CStr s)) = clean_price (Scalar (CStr (a ++ b)))).
Proof.
  rewrite !clean_price_text. split; [|split].
  - rewrite keep_price_chars_idem. reflexivity.
  - rewrite keep_commas_to_periods. reflexivity.
  - intros a b c -> D P C. rewrite !clean_price_text.
    rewrite (keep_price_chars_drop a b c D P C). reflexivity.
Qed.

(** ** clean_price: what it returns *)

Lemma binary_round_aux_not_nan (sx : bool) (mx ex : Z) (lx : location) :
  (0 <= mx)%Z -> binary_round_aux prec emax sx mx ex lx <> S754_nan.
Proof.
  intros H. unfold binary_round_aux.
  pose proof (shr_fexp_nonneg mx ex lx H) as H1.
  destruct (shr_fexp prec emax mx ex lx) as [mrs' e']. simpl in H1.
  pose proof (shr_fexp_nonneg _ e' loc_Exact
                (round_nearest_even_nonneg _ (loc_of_shr_record mrs') H1)) as H2.
  destruct (shr_fexp prec emax _ e' loc_Exact) as [mrs'' e'']. simpl in H2.
  destruct (shr_m mrs'') as [|m|m]; [discriminate | | lia].
  destruct (Z.leb e'' (emax - prec)); discriminate.
Qed.

Lemma nearest_float_of_Z_not_nan (z : Z) : nearest_float_of_Z z <> S754_nan.
Proof.
  unfold nearest_float_of_Z, binary_normalize.
  destruct z as [|p|p]; [discriminate | |]; unfold binary_round;
    destruct (shl_align p 0 _) as [mz ez];
    apply binary_round_aux_not_nan; lia.
Qed.

Lemma clean_price_not_nan (v : value) (f : pyfloat) :
  clean_price v = Ok f -> f <> S754_nan.
Proof.
  intros E.
  destruct v as [c|cs]; [|discriminate].
  destruct c as [|b|z|g|s|n].
  - injection E as <-. discriminate.
  - destruct b; injection E as <-; discriminate.
  - unfold clean_price in E. cbn [truth_isna bind isna] in E.
    unfold float_of_int in E.
    pose proof (nearest_float_of_Z_not_nan z) as Nn.
    destruct (nearest_float_of_Z z); try discriminate;
      injection E as <-; exact Nn.
  - unfold clean_price in E. cbn [truth_isna bind] in E.
    destruct g; cbn [isna] in E; injection E as <-; discriminate.
  - intros ->. pose proof (clean_price_sign _ _ E eq_refl). discriminate.
  - intros ->. pose proof (clean_price_sign _ _ E eq_refl). discriminate.
Qed.

(** X7.  [clean_price] never returns a NaN.  On a single cell it raises
    nothing but the [OverflowError] of an [int] that is beyond the range of
    a float; handed a Series, which is what a doubled column label gives, it
    raises [ValueError]. *)
Theorem clean_price_outcomes :
  (forall v f, clean_price v = Ok f -> f <> S754_nan)
  /\ (forall c e,
      clean_price (Scalar c) = Raise e ->
      e = OverflowError
      /\ exists z, c = CInt z /\ exists s, nearest_float_of_Z z = S754_infinity s)
  /\ (forall cs, clean_price (Series cs) = Raise ValueError).
Proof.
  split; [exact clean_price_not_nan | split].
  - intros c e E. destruct c as [|b|z|g|s|n].
    + discriminate.
    + destruct b; discriminate.
    + unfold clean_price in E. cbn [truth_isna bind isna] in E.
      unfold float_of_int in E.
      destruct (nearest_float_of_Z z) as [| s | |] eqn:F; try discriminate.
      injection E as <-. split; [reflexivity|].
      exists z. split; [reflexivity|]. exists s. exact F.
    + unfold clean_price in E. cbn [truth_isna bind] in E.
      destruct (isna (CFloat g)); discriminate.
    + rewrite clean_price_text in E. discriminate.
    + rewrite clean_price_numpy_int, clean_price_text in E. discriminate.
  - reflexivity.
Qed.

(** ** process_excel_file: the products of a frame *)

Lemma process_rows_length (cols : list pystr) (m : colmap) (brand_ : pystr)
      (rs : list (list cell)) :
  forall ps,
    process_rows cols m brand_ rs = Ok ps -> List.length ps <= List.length rs.
Proof.
  induction rs as [|row rs IH]; intros ps E; simpl in E.
  - injection E as <-. simpl. lia.
  - apply bind_Ok in E. destruct E as [r [_ E]].
    apply bind_Ok in E. destruct E as [ps' [Ps E]].
    injection E as <-. specialize (IH ps' Ps).
    destruct r; simpl; lia.
Qed.

(** X8.  A frame yields at most one product for each of its rows; every
    product carries the brand derived from the file name, whatever the row
    holds, and a price that is a number, never a NaN. *)
Theorem process_frame_products (filename : pystr) (df : frame) (ps : list product) :
  process_frame filename df = Ok ps ->
  List.length ps <= List.length (rows df)
  /\ forall p, In p ps ->
       brand p = extract_brand_from_filename filename
       /\ price p <> S754_nan.
Proof.
  intros E. split.
  - unfold process_frame in E. destruct (negb _).
    + injection E as <-. simpl. lia.
    + apply (process_rows_length _ _ _ _ _ E).
  - intros p I.
    destruct (process_frame_In filename df ps p E I) as [row [_ R]].
    destruct (process_row_emits _ _ _ _ _ R)
      as [c [n [_ [_ [_ [_ [_ [_ [_ [_ [_ [_ [B P]]]]]]]]]]]]].
    split; [exact B|].
    destruct (truthy (price_col _)).
    + apply (clean_price_not_nan _ _ P).
    + rewrite P. discriminate.
Qed.

(** A label that the search finds is one of the labels of the frame. *)
Lemma find_columns_In (cols : list pystr) (r : role) (l : pystr) :
  col_of (find_columns cols) r = Some l ->
  In l cols
  /\ (chain_role l = Some r
      \/ (r = RPrice /\ contains (py "PRECIO") (upper l) = true)).
Proof.
  rewrite find_columns_col_of.
  destruct r; try (intros E; destruct (chain_col_origin cols _ l E) as [I R];
                   split; [exact I | left; exact R]).
  destruct (price_col (fold_left assign_col cols no_cols)) eqn:P.
  - intros E. destruct (chain_col_origin cols RPrice l E) as [I R].
    split; [exact I | left; exact R].
  - intros E. destruct (first_precio_In cols l E) as [I C].
    split; [exact I | right; split; [reflexivity | exact C]].
Qed.

Lemma contains_in_empty (kw : pystr) : kw <> [] -> contains kw [] = false.
Proof. destruct kw; [contradiction | reflexivity]. Qed.

(** X9.  A column found for a role is one of the labels of the frame and
    is never the empty label, since it holds a keyword: the truth tests that
    the script makes on the column variables (lines 98, 121 and 122) are
    tests for [None], and a look-up by a found label in a row that has a
    cell for every column does not depend on its default. *)
Theorem found_column_is_a_label (cols : list pystr) (r : role) (l : pystr) :
  col_of (find_columns cols) r = Some l ->
  In l cols
  /\ truthy (col_of (find_columns cols) r) = true
  /\ forall row default default',
       List.length cols <= List.length row ->
       row_get cols row l default = row_get cols row l default'.
Proof.
  intros E. destruct (find_columns_In cols r l E) as [I K].
  assert (Ne : l <> []).
  { intros ->. destruct K as [K | [_ K]].
    - apply chain_role_matches in K. destruct r; discriminate K.
    - discriminate K. }
  split; [exact I|]. split.
  - rewrite E. destruct l; [contradiction | reflexivity].
  - intros row default default' L. unfold row_get.
    assert (M : exists c, In c (map snd (filter (fun lc => pystr_eqb (fst lc) l)
                                               (combine cols row)))).
    { clear E K Ne. revert row L.
      induction cols as [|c cols IH]; intros row L; [destruct I|].
      destruct row as [|x row]; [simpl in L; lia|].
      cbn [combine filter fst]. destruct I as [-> | I].
      - rewrite pystr_eqb_refl. exists x. left. reflexivity.
      - destruct (IH I row) as [y Hy]; [simpl in L; lia|].
        exists y. destruct (pystr_eqb c l); [right|]; exact Hy. }
    destruct (map snd _) as [|c [|c' cs]]; [|reflexivity..].
    destruct M as [c []].
Qed.

Lemma no_label_no_column (cols : list pystr) (r : role) :
  r <> RPrice ->
  (forall l, In l cols -> matches_rule r (upper l) = false) ->
  col_of (find_columns cols) r = None.
Proof.
  intros Np No.
  destruct (col_of (find_columns cols) r) as [l|] eqn:E; [|reflexivity].
  destruct (find_columns_In cols r l E) as [I [K | [K _]]]; [|contradiction].
  apply chain_role_matches in K. rewrite (No l I) in K. discriminate.
Qed.

(** X10.  A frame none of whose labels holds a code keyword, or none of
    whose labels holds a name keyword, yields no product and raises
    nothing, whatever its rows hold. *)
Theorem missing_required_column_no_products (filename : pystr) (df : frame) :
  (forall l, In l (normalized_columns df) -> matches_rule RCode (upper l) = false)
  \/ (forall l, In l (normalized_columns df) -> matches_rule RName (upper l) = false) ->
  process_frame filename df = Ok [].
Proof.
  intros H. unfold process_frame.
  destruct H as [No | No].
  - pose proof (no_label_no_column _ RCode ltac:(discriminate) No) as E.
    cbn [col_of] in E. rewrite E. reflexivity.
  - pose proof (no_label_no_column _ RName ltac:(discriminate) No) as E.
    cbn [col_of] in E. rewrite E, andb_false_r. reflexivity.
Qed.

Lemma row_get_found (cols : list pystr) (row : list cell) (l : pystr) (c : cell)
      (default : value) :
  row_get cols row l py_None = Scalar c -> isna c = false ->
  row_get cols row l default = Scalar c.
Proof.
  unfold row_get.
  destruct (map snd _) as [|x [|y cs]]; intros E Na.
  - injection E as <-. discriminate.
  - exact E.
  - discriminate.
Qed.

(** X11.  The unit of a product is the trimmed text of the unit cell of its
    row; it is the empty text when the frame has no unit column or the cell
    is missing. *)
Theorem emitted_unit (cols : list pystr) (m : colmap) (brand_ : pystr)
        (row : list cell) (p : product) :
  process_row cols m brand_ row = Ok (Some p) ->
  strip (unit p) = unit p
  /\ (unit_col m = None -> unit p = [])
  /\ forall l, unit_col m = Some l -> l <> [] ->
       exists c,
         row_get cols row l py_None = Scalar c
         /\ unit p = if isna c then [] else strip (py_str c).
Proof.
  unfold process_row.
  destruct (row_get cols row (label_of (code_col m)) py_None) as [c|cs];
    [|discriminate].
  cbn [truth_isna bind].
  destruct (isna c); [discriminate|].
  destruct (row_get cols row (label_of (name_col m)) py_None) as [n|ns];
    [|discriminate].
  cbn [truth_isna bind str_value].
  destruct (isna n); [discriminate|].
  destruct (pystr_eqb (strip (py_str c)) []); [discriminate|].
  destruct (pystr_eqb (strip (py_str n)) []); [discriminate|].
  cbn [orb].
  destruct (existsb _ _); [discriminate|].
  intros E. apply bind_Ok in E. destruct E as [u [U E]].
  apply bind_Ok in E. destruct E as [pr [_ E]].
  cbn [name] in E.
  destruct (negb _ && _); [|discriminate].
  injection E as <-. cbn [unit].
  destruct (unit_col m) as [l|] eqn:Uc.
  - destruct l as [|x l].
    + cbn [truthy] in U. injection U as <-.
      split; [reflexivity|]. split; [discriminate|].
      intros l' Q Ne. injection Q as <-. contradiction.
    + cbn [truthy label_of] in U.
      apply bind_Ok in U. destruct U as [present [Pr U]].
      destruct (row_get cols row (x :: l) py_None) as [d|ds] eqn:G;
        [|discriminate].
      cbn [truth_notna] in Pr. injection Pr as <-.
      unfold notna in U. destruct (isna d) eqn:Nd; cbn [negb] in U.
      * injection U as <-. split; [reflexivity|]. split; [discriminate|].
        intros l' Q _. injection Q as <-. exists d.
        split; [exact G|]. rewrite Nd. reflexivity.
      * rewrite (row_get_found cols row (x :: l) d _ G Nd) in U.
        cbn [str_value] in U. injection U as <-.
        split; [apply strip_idem|]. split; [discriminate|].
        intros l' Q _. injection Q as <-. exists d.
        split; [exact G|]. rewrite Nd. reflexivity.
  - cbn [truthy] in U. injection U as <-.
    split; [reflexivity|]. split; [reflexivity | discriminate].
Qed.

(** ** main: the files *)

Lemma py_sorted_str_unique (l l' : list pystr) :
  Permutation l l' -> NoDup l ->
  py_sorted str_ltb l = py_sorted str_ltb l'.
Proof.
  intros P D.
  assert (S : forall k, NoDup k -> StronglySorted str_lt (py_sorted str_ltb k)).
  { intros k Dk. apply (sorted_distinct_strict pystr str_ltb str_ltb_total).
    - apply py_sorted_sorted; [exact str_ltb_asym | exact str_le_trans].
    - apply (Permutation_NoDup (py_sorted_perm pystr str_ltb k) Dk). }
  apply (strict_sorted_unique pystr str_ltb str_ltb_asym).
  - apply S, D.
  - apply S, (Permutation_NoDup P D).
  - intros x. split; intros I.
    + apply (Permutation_in _ (py_sorted_perm _ str_ltb l')).
      apply (Permutation_in _ P).
      apply (Permutation_in _ (Permutation_sym (py_sorted_perm _ str_ltb l))), I.
    + apply (Permutation_in _ (py_sorted_perm _ str_ltb l)).
      apply (Permutation_in _ (Permutation_sym P)).
      apply (Permutation_in _ (Permutation_sym (py_sorted_perm _ str_ltb l'))), I.
Qed.

(** X12.  The catalog does not depend on the order in which the files of
    the folder are found: [main] sorts the file names first, so two lists of
    the same distinct names give the same result. *)
Theorem main_ignores_file_order (excel_files excel_files' : list pystr) :
  Permutation excel_files excel_files' -> NoDup excel_files ->
  main excel_files = main excel_files'.
Proof.
  intros P D. unfold main.
  rewrite (py_sorted_str_unique excel_files excel_files' P D). reflexivity.
Qed.

Lemma collect_entries (files : list pystr) :
  forall acc,
    collect files = Ok acc -> fst acc = flat_map file_entries files.
Proof.
  induction files as [|f files IH]; intros acc E; simpl in E.
  - injection E as <-. reflexivity.
  - apply bind_Ok in E. destruct E as [ps [Pf E]].
    apply bind_Ok in E. destruct E as [rest [R E]].
    injection E as <-. cbn [fst flat_map].
    unfold file_entries at 1. rewrite Pf, (IH rest R). reflexivity.
Qed.

Lemma file_entries_category (f : pystr) (x : catalog_product) :
  In x (file_entries f) -> category x = categorize_product (name (fields x)).
Proof.
  unfold file_entries. destruct (process_excel_file f) as [ps|e]; [|intros []].
  intros I. apply in_map_iff in I. destruct I as [p [<- _]]. reflexivity.
Qed.

(** X13.  The products of the catalog are the products of the files, no
    more and no fewer: they are a rearrangement of the products that the
    files yield one after the other, so [total_products] is the sum of the
    products of the files, and each has the category that
    [categorize_product] gives to its name. *)
Theorem catalog_is_union_of_files (excel_files : list pystr) (cat : catalog) :
  main excel_files = Ok cat ->
  Permutation (products cat) (flat_map file_entries excel_files)
  /\ total_products cat = List.length (flat_map file_entries excel_files)
  /\ forall x, In x (products cat) ->
       category x = categorize_product (name (fields x)).
Proof.
  unfold main. intros E. apply bind_Ok in E. destruct E as [acc [C E]].
  injection E as <-. cbn [products total_products].
  set (ltb := fun x y => key_ltb (sort_key x) (sort_key y)).
  assert (P : Permutation (py_sorted ltb (fst acc))
                          (flat_map file_entries excel_files)).
  { rewrite <- (py_sorted_perm catalog_product ltb (fst acc)).
    rewrite (collect_entries _ acc C).
    apply Permutation_flat_map.
    symmetry. apply py_sorted_perm. }
  split; [exact P|]. split; [apply Permutation_length, P|].
  intros x I. apply (Permutation_in _ P) in I.
  apply in_flat_map in I. destruct I as [f [_ I]].
  apply (file_entries_category f x I).
Qed.

Lemma collect_raises (files : list pystr) (f : pystr) (e : exn) :
  In f files -> process_excel_file f = Raise e ->
  exists e', collect files = Raise e'.
Proof.
  intros I R. induction files as [|g files IH]; [destruct I|].
  simpl. destruct (process_excel_file g) as [ps|e0] eqn:Pg.
  - destruct I as [-> | I]; [congruence|].
    destruct (IH I) as [e' E]. exists e'. cbn [bind]. rewrite E. reflexivity.
  - exists e0. reflexivity.
Qed.

(** X14.  There is no partial catalog: when the processing of one of the
    files raises, which the script does not catch, [main] raises and
    returns no catalog, whatever the other files hold. *)
Theorem main_raises_if_a_file_raises (excel_files : list pystr) (f : pystr) (e : exn) :
  In f excel_files -> process_excel_file f = Raise e ->
  exists e', main excel_files = Raise e'.
Proof.
  intros I R.
  assert (I' : In f (py_sorted str_ltb excel_files)).
  { apply (Permutation_in _ (py_sorted_perm _ str_ltb excel_files)), I. }
  destruct (collect_raises _ f e I' R) as [e' E].
  exists e'. unfold main. rewrite E. reflexivity.
Qed.

(** ** categorize_product: its values *)

Lemma first_category_In (name_upper : pystr) (table : list (pystr * list pystr))
      (cat : pystr) :
  first_category name_upper table = Some cat -> In cat (map fst table).
Proof.
  induction table as [|[c ks] table IH]; simpl; [discriminate|].
  destruct (existsb _ ks).
  - intros E. injection E as <-. left. reflexivity.
  - intros E. right. apply IH, E.
Qed.

(** X15.  The category of a product is one of the fourteen categories of
    the table, or [Otros]: no other text is ever a category. *)
Theorem category_in_table_or_otros (product_name : pystr) :
  In (categorize_product product_name) (map fst categories)
  \/ categorize_product product_name = py "Otros".
Proof.
  unfold categorize_product.
  destruct (first_category (upper product_name) categories) as [c|] eqn:E.
  - left. apply (first_category_In _ _ _ E).
  - right. reflexivity.
Qed.

Lemma upper_ascii_idem (s : pystr) :
  (forall c, In c s -> (c < 128)%N) -> upper (upper s) = upper s.
Proof.
  induction s as [|c s IH]; intros A; [reflexivity|].
  change (upper (c :: s)) with (upper_char c ++ upper s).
  rewrite upper_app, IH by (intros d I; apply A; right; exact I).
  f_equal. pose proof (A c (or_introl eq_refl)) as Lc.
  unfold upper_char. apply N.ltb_lt in Lc. rewrite Lc.
  destruct ((97 <=? c) && (c <=? 122))%N eqn:Low.
  - apply andb_true_iff in Low. destruct Low as [L U].
    apply N.leb_le in L. apply N.leb_le in U.
    unfold upper, flat_map, upper_char.
    replace (c - 32 <? 128)%N with true by (symmetry; apply N.ltb_lt; lia).
    replace ((97 <=? c - 32) && (c - 32 <=? 122))%N with false; [reflexivity|].
    symmetry. apply andb_false_iff. left. apply N.leb_gt. lia.
  - unfold upper, flat_map, upper_char. rewrite Lc, Low. reflexivity.
Qed.

(** X16.  The category does not depend on the letter case of an ASCII
    name: a name and its uppercase have the same category. *)
Theorem categorize_ignores_ascii_case (product_name : pystr) :
  (forall c, In c product_name -> (c < 128)%N) ->
  categorize_product (upper product_name) = categorize_product product_name.
Proof.
  intros A. unfold categorize_product.
  rewrite (upper_ascii_idem product_name A). reflexivity.
Qed.

End Build.

(** * The functions on the sample inputs *)

Local Abbreviation upper' := (upper sample_upper_ext).
Local Abbreviation find_columns' := (find_columns sample_upper_ext).
Local Abbreviation chain_role' := (chain_role sample_upper_ext).
Local Abbreviation brand_of' := (extract_brand_from_filename sample_decimal_ext).
Local Abbreviation clean_price' :=
  (clean_price sample_decimal_ext sample_float_repr sample_series_repr).
Local Abbreviation categorize' := (categorize_product sample_upper_ext).
Local Abbreviation find_header_row' :=
  (find_header_row sample_upper_ext sample_float_repr).
Local Abbreviation process_row' :=
  (process_row sample_upper_ext sample_decimal_ext sample_float_repr
               sample_series_repr).
Local Abbreviation process_frame' :=
  (process_frame sample_upper_ext sample_decimal_ext sample_float_repr
                 sample_series_repr).
Local Abbreviation main' :=
  (main sample_upper_ext sample_decimal_ext sample_float_repr
        sample_series_repr sample_read_excel).

Example py_codigo :
  py "CÓDIGO" = [67; 211; 68; 73; 71; 79]%N.
Proof. reflexivity. Qed.

Example upper_accents : upper' (py "Código á ñ ß") = py "CÓDIGO Á Ñ SS".
Proof. reflexivity. Qed.

Example str_int_7500 : str_int 7500 = py "7500".
Proof. reflexivity. Qed.

Example str_int_neg : str_int (-12) = py "-12".
Proof. reflexivity. Qed.

Example strip_padded : strip (py "  LECHE ENTERA  ") = py "LECHE ENTERA".
Proof. reflexivity. Qed.

Example float_of_7500 :
  nearest_float_of_Z 7500 = S754_finite false 8246337208320000 (-40).
Proof. reflexivity. Qed.

Example float_of_one_tenth :
  nearest_float_of_decimal 1 1 = S754_finite false 7205759403792794 (-56).
Proof. reflexivity. Qed.

Example float_of_750_hundredths :
  nearest_float_of_decimal 750 2 = S754_finite false 8444249301319680 (-50).
Proof. reflexivity. Qed.

Example stem_of_xlsx :
  path_stem (py "LACTEOS DEL VALLE 2025.xlsx") = py "LACTEOS DEL VALLE 2025".
Proof. reflexivity. Qed.

Example stem_of_hidden : path_stem (py ".xlsx") = py ".xlsx".
Proof. reflexivity. Qed.

Example stem_of_path : path_stem (py "portfolio/./ALPINA 26.ods") = py "ALPINA 26".
Proof. reflexivity. Qed.

Example brand_of_long_number : brand_of' (py "LISTA 12345.xlsx") = py "LISTA 1".
Proof. reflexivity. Qed.

Example price_of_minus_text :
  clean_price' (Scalar (CStr (py "-5"))) = Ok (dyadic 5 0).
Proof. reflexivity. Qed.

Example duplicate_label_raises :
  process_frame' (py "A.xls")
    {| columns := [CStr (py " codigo"); CStr (py "Nombre"); CStr (py "CODIGO ")];
       rows := [[CStr (py "1"); CStr (py "abc"); CStr (py "2")]] |}
  = Raise ValueError.
Proof. reflexivity. Qed.

(** One file, its header in row 2, two products: they come out in the
    order of their names. *)
Example end_to_end :
  main' [py "LECHERIA 26.xlsx"]
  = Ok {| products :=
            [ {| fields := {| code := py "002"; name := py "CAFE MOLIDO";
                              unit := py "KG"; price := dyadic 25 (-1);
                              brand := py "LECHERIA" |};
                 category := py "Café y Chocolate" |};
              {| fields := {| code := py "001"; name := py "LECHE ENTERA";
                              unit := py "LT"; price := dyadic 4500 0;
                              brand := py "LECHERIA" |};
                 category := py "Lácteos" |} ];
          brands := [py "LECHERIA"];
          cat_categories := [py "Café y Chocolate"; py "Lácteos"];
          total_products := 2 |}.
Proof. vm_compute. reflexivity. Qed.

(** * The theorems at work, and the inputs on which the specification fails *)

(** C1: of two code labels the first is not the one chosen. *)
Lemma first_code_label_not_chosen :
  let cols := [py "CODIGO"; py "CODIGO ALTERNO"; py "PRODUCTO"] in
  matches_rule RCode (py "CODIGO") = true
  /\ matches_rule RCode (py "CODIGO ALTERNO") = true
  /\ code_col (find_columns' cols) = Some (py "CODIGO ALTERNO")
  /\ code_col (find_columns' cols) <> Some (py "CODIGO").
Proof. repeat split; try reflexivity. discriminate. Qed.

Lemma column_mapping_last_match_wins_witness :
  code_col (find_columns' [py "CODIGO"; py "CODIGO ALTERNO"; py "PRODUCTO";
                           py "PRECIO"])
  = Some (py "CODIGO ALTERNO")
  /\ price_col (find_columns' [py "PRECIO LISTA"; py "PRECIO NETO"])
     = Some (py "PRECIO LISTA").
Proof.
  split.
  - apply (proj1 (column_mapping_last_match_wins sample_upper_ext
                    [py "CODIGO"; py "CODIGO ALTERNO"; py "PRODUCTO"; py "PRECIO"]
                    [py "CODIGO"] [py "PRODUCTO"; py "PRECIO"]
                    (py "CODIGO ALTERNO") eq_refl) RCode).
    + reflexivity.
    + intros l' [<- | [<- | []]]; vm_compute; discriminate.
  - apply (proj2 (column_mapping_last_match_wins sample_upper_ext
                    [py "PRECIO LISTA"; py "PRECIO NETO"]
                    [] [py "PRECIO NETO"] (py "PRECIO LISTA") eq_refl)).
    + intros l' [<- | [<- | []]]; vm_compute; discriminate.
    + reflexivity.
    + intros l' [].
Defined.

Lemma categorize_product_first_match_witness :
  categorize' (py "Cafe con chocolate") = py "Café y Chocolate"
  /\ categorize' (py "Leche entera") = py "Lácteos"
  /\ categorize' (py "Tornillo") = py "Otros".
Proof.
  split; [|split].
  - apply (proj1 (categorize_product_first_match sample_upper_ext
                    (py "Cafe con chocolate"))
                 [] (py "Café y Chocolate")
                 (snd (hd (py "", []) categories)) (tl categories) eq_refl).
    + apply existsb_keyword. reflexivity.
    + intros c ks [].
  - apply (proj1 (categorize_product_first_match sample_upper_ext
                    (py "Leche entera"))
                 [hd (py "", []) categories] (py "Lácteos")
                 (snd (hd (py "", []) (tl categories))) (tl (tl categories))
                 eq_refl).
    + apply existsb_keyword. reflexivity.
    + intros c ks [E | []] H. injection E as <- <-.
      apply existsb_keyword in H. vm_compute in H. discriminate.
  - apply (proj1 (proj2 (categorize_product_first_match sample_upper_ext
                           (py "Tornillo")))).
    intros c ks I H. apply existsb_keyword in H.
    assert (A : forallb (fun e => negb (existsb (fun keyword =>
                  contains keyword (upper' (py "Tornillo"))) (snd e)))
                  categories = true) by (vm_compute; reflexivity).
    rewrite forallb_forall in A. specialize (A (c, ks) I). cbn [snd] in A.
    rewrite H in A. discriminate.
Defined.

Lemma catalog_invariants_witness :
  exists cat,
    main' sample_files = Ok cat
    /\ map (fun x => (brand (fields x), name (fields x))) (products cat)
       = [ (py "ALPINA", py "YOGURT FRESA");
           (py "LECHERIA", py "CAFE MOLIDO");
           (py "LECHERIA", py "LECHE ENTERA") ]
    /\ total_products cat = 3
    /\ brands cat = [py "ALPINA"; py "LECHERIA"]
    /\ cat_categories cat = [py "Café y Chocolate"; py "Lácteos"]
    /\ StronglySorted brand_then_name_le (products cat)
    /\ StronglySorted lex_lt (brands cat).
Proof.
  eexists. split; [vm_compute; reflexivity|].
  split; [reflexivity|]. split; [reflexivity|].
  split; [reflexivity|]. split; [reflexivity|].
  match goal with
  | |- context [products ?c] =>
    pose proof (catalog_invariants sample_upper_ext sample_decimal_ext
                  sample_float_repr sample_series_repr sample_read_excel
                  sample_files c eq_refl) as [S [_ [_ [_ [B _]]]]]
  end.
  split; [exact S | exact B].
Defined.

(** C4: a numpy integer is no instance of [int]; it is not converted as it
    is, which would keep its sign, but read as text. *)
Lemma numpy_int_is_not_cast_directly :
  is_int_or_float (CNumpyInt (-5)) = false
  /\ float_of_int (-5) = Ok (SFopp (dyadic 5 0))
  /\ clean_price' (Scalar (CNumpyInt (-5))) = Ok (dyadic 5 0)
  /\ clean_price' (Scalar (CNumpyInt (-5))) <> float_of_int (-5).
Proof. repeat split; try reflexivity. discriminate. Qed.

Lemma clean_price_rules_witness :
  clean_price' (Scalar (CFloat S754_nan)) = Ok float_zero
  /\ clean_price' (Scalar (CFloat (dyadic 3 (-1)))) = Ok (dyadic 3 (-1))
  /\ clean_price' (Scalar (CNumpyInt 12)) = clean_price' (Scalar (CStr (py "12"))).
Proof.
  pose proof (clean_price_rules sample_decimal_ext sample_float_repr
                                sample_series_repr)
    as [Na [_ [_ [_ [Fl [Other _]]]]]].
  split; [apply Na; reflexivity|].
  split; [apply Fl; reflexivity|].
  apply (Other (CNumpyInt 12)); reflexivity.
Defined.

(** C5: a price cell below zero gives a product with a price below zero. *)
Lemma negative_cell_gives_negative_price :
  process_frame' (py "NOTAS 2025.xlsx") credit_note
  = Ok [ {| code := py "D1"; name := py "DESCUENTO LECHE"; unit := [];
            price := SFopp (dyadic 9001 (-1)); brand := py "NOTAS" |} ]
  /\ float_nonneg (SFopp (dyadic 9001 (-1))) = false
  /\ float_neg (SFopp (dyadic 9001 (-1))) = true.
Proof. repeat split; reflexivity. Qed.

Lemma price_nonneg_unless_negative_cell_witness :
  forallb (fun p => float_nonneg (price p))
          match process_frame' (py "LECHERIA 26.xlsx") lecheria with
          | Ok ps => ps
          | Raise _ => []
          end = true
  /\ float_nonneg (dyadic 25 (-1)) = true.
Proof.
  split; [reflexivity|].
  destruct (price_nonneg_unless_negative_cell sample_upper_ext sample_decimal_ext
              sample_float_repr sample_series_repr
              (py "LECHERIA 26.xlsx") lecheria
              [ {| code := py "001"; name := py "LECHE ENTERA"; unit := py "LT";
                   price := dyadic 4500 0; brand := py "LECHERIA" |};
                {| code := py "002"; name := py "CAFE MOLIDO"; unit := py "KG";
                   price := dyadic 25 (-1); brand := py "LECHERIA" |} ]
              eq_refl
              {| code := py "002"; name := py "CAFE MOLIDO"; unit := py "KG";
                 price := dyadic 25 (-1); brand := py "LECHERIA" |}
              (or_intror (or_introl eq_refl)))
    as [row [I [_ [Nonneg _]]]].
  apply Nonneg.
  destruct I as [<- | [<- | []]]; reflexivity.
Defined.

Lemma find_header_row_first_match_witness :
  find_header_row' lecheria_raw = 2
  /\ find_header_row' alpina = 0.
Proof.
  split.
  - apply (proj1 (proj2 (find_header_row_first_match sample_upper_ext
                           sample_float_repr lecheria_raw))
                 2 [CStr (py "CÓDIGO"); CStr (py "PRODUCTO"); CStr (py "UNIDAD");
                    CStr (py "P. FINAL")] eq_refl).
    + apply is_header_str_spec. reflexivity.
    + intros j row' Lt E H. apply is_header_str_spec in H.
      destruct j as [|[|j]]; [| |lia]; injection E as <-;
        vm_compute in H; discriminate.
  - apply (proj2 (proj2 (find_header_row_first_match sample_upper_ext
                           sample_float_repr alpina))).
    intros row I H. apply is_header_str_spec in H.
    destruct I as [<- | [<- | [<- | []]]]; vm_compute in H; discriminate.
Defined.

(** C7: a name without white space before its digits does not follow the
    convention of the specification, and still loses the digits. *)
Lemma digits_without_space_are_stripped :
  path_stem (py "ALPINA2025.xlsx") = py "ALPINA2025"
  /\ ~ follows_year_convention sample_decimal_ext (py "ALPINA2025")
  /\ brand_of' (py "ALPINA2025.xlsx") = py "ALPINA"
  /\ brand_of' (py "ALPINA2025.xlsx") <> py "ALPINA2025".
Proof.
  split; [reflexivity|]. split; [|split; [reflexivity | discriminate]].
  intros [p [ws [ds [E [Nw [Fw _]]]]]].
  destruct ws as [|c ws]; [contradiction|].
  inversion Fw as [|? ? Sp _]; subst.
  assert (I : In c (py "ALPINA2025")).
  { rewrite E. apply in_or_app. right. left. reflexivity. }
  assert (A : forallb (fun x => negb (is_space x)) (py "ALPINA2025") = true)
    by reflexivity.
  rewrite forallb_forall in A. specialize (A c I).
  rewrite Sp in A. discriminate.
Qed.

Lemma brand_strips_trailing_digits_witness :
  brand_of' (py "LECHERIA 26.xlsx") = py "LECHERIA"
  /\ brand_of' (py "ALPINA2025.xlsx") = py "ALPINA"
  /\ brand_of' (py "ALPINA 25" ++ [10%N] ++ py ".xlsx") = py "ALPINA"
  /\ brand_of' (py "LISTA 12345.xlsx") = strip (py "LISTA 1")
  /\ brand_of' (py " QUESOS DEL CAMPO .ods") = py "QUESOS DEL CAMPO".
Proof.
  pose proof (brand_strips_trailing_digits sample_decimal_ext)
    as [_ [_ [Token [TokenNl [Long Plain]]]]].
  assert (Last : forall (P : N -> Prop) (p : pystr) (x : N),
             P x -> last_char_is P (p ++ [x])).
  { intros P p x Px q y E. apply app_inj_tail in E. destruct E as [_ <-].
    exact Px. }
  split; [|split; [|split; [|split]]].
  - apply (Token (py "LECHERIA 26.xlsx") (py "LECHERIA") (py " ") (py "26")
                 eq_refl).
    + repeat constructor.
    + repeat constructor.
    + simpl. lia.
    + apply (Last _ (py "LECHERI") 65%N). reflexivity.
    + discriminate.
  - apply (Token (py "ALPINA2025.xlsx") (py "ALPINA") [] (py "2025") eq_refl).
    + constructor.
    + repeat constructor.
    + simpl. lia.
    + apply (Last _ (py "ALPIN") 65%N). reflexivity.
    + intros _. apply (Last _ (py "ALPIN") 65%N). reflexivity.
  - apply (TokenNl (py "ALPINA 25" ++ [10%N] ++ py ".xlsx") (py "ALPINA")
                   (py " ") (py "25") eq_refl).
    + repeat constructor.
    + repeat constructor.
    + simpl. lia.
    + apply (Last _ (py "ALPIN") 65%N). reflexivity.
    + discriminate.
  - apply (Long (py "LISTA 12345.xlsx") (py "LISTA ") 49%N (py "2345") eq_refl).
    + reflexivity.
    + repeat constructor.
    + reflexivity.
  - apply (Plain (py " QUESOS DEL CAMPO .ods")).
    + intros [q [a [b [E [Da Db]]]]].
      apply (f_equal (@rev N)) in E. rewrite rev_app_distr in E.
      simpl in E. injection E as <- _. discriminate Db.
    + intros [s' [E _]].
      apply (f_equal (@rev N)) in E. rewrite rev_app_distr in E.
      simpl in E. discriminate E.
Defined.

Lemma emitted_code_and_name_valid_witness :
  process_frame' (py "ALPINA 2025.xls") alpina
  = Ok [ {| code := py "A1"; name := py "YOGURT FRESA"; unit := [];
            price := dyadic 3200 0; brand := py "ALPINA" |} ]
  /\ 2 < List.length (py "YOGURT FRESA")
  /\ forall p, process_row' (normalized_columns sample_upper_ext sample_float_repr alpina)
                            (find_columns' (normalized_columns sample_upper_ext
                                              sample_float_repr alpina))
                            (py "ALPINA")
                            [CStr (py "A2"); CStr (py "AB"); CInt 100]
               <> Ok (Some p).
Proof.
  pose proof (emitted_code_and_name_valid sample_upper_ext sample_decimal_ext
                sample_float_repr sample_series_repr) as [Valid [_ Short]].
  split; [reflexivity|]. split.
  - apply (Valid (py "ALPINA 2025.xls") alpina _ _ eq_refl (or_introl eq_refl)).
  - apply (Short (normalized_columns sample_upper_ext sample_float_repr alpina)
                 (find_columns' (normalized_columns sample_upper_ext
                                   sample_float_repr alpina))
                 (py "ALPINA") [CStr (py "A2"); CStr (py "AB"); CInt 100]
                 (CStr (py "AB")) eq_refl).
    right. simpl. lia.
Defined.

(** C10: when no label holds [FINAL], the search for [PRECIO] takes the
    code column as the price column too. *)
Lemma precio_fallback_reuses_code_column :
  let cols := [py "CODIGO PRECIO"; py "PRODUCTO"] in
  code_col (find_columns' cols) = Some (py "CODIGO PRECIO")
  /\ price_col (find_columns' cols) = Some (py "CODIGO PRECIO")
  /\ name_col (find_columns' cols) = Some (py "PRODUCTO").
Proof. repeat split; reflexivity. Qed.

Lemma chain_roles_exclusive_witness :
  chain_role' (py "CODIGO PRODUCTO") = Some RCode
  /\ name_col (find_columns' [py "CODIGO PRODUCTO"; py "UNIDAD"]) = None
  /\ process_frame' (py "ALPINA 2025.xls") shadowed_name = Ok [].
Proof.
  pose proof (chain_roles_exclusive sample_upper_ext sample_decimal_ext
                sample_float_repr sample_series_repr
                [py "CODIGO PRODUCTO"; py "UNIDAD"])
    as [_ [_ [_ [Code Shadow]]]].
  assert (S : forall l, In l [py "CODIGO PRODUCTO"; py "UNIDAD"] ->
                        matches_rule RName (upper' l) = true ->
                        matches_rule RCode (upper' l) = true).
  { intros l [<- | [<- | []]]; vm_compute; intros H;
      [reflexivity | discriminate]. }
  destruct (Shadow S) as [Nm Zero].
  split; [apply Code; reflexivity|]. split; [exact Nm|].
  apply Zero. reflexivity.
Defined.

(** * The further properties at work *)

Local Abbreviation main_doubled' :=
  (main sample_upper_ext sample_decimal_ext sample_float_repr
        sample_series_repr sample_read_excel_doubled).
Local Abbreviation file_entries' :=
  (file_entries sample_upper_ext sample_decimal_ext sample_float_repr
                sample_series_repr sample_read_excel).

Lemma path_stem_strips_extension_witness :
  path_stem (py "LISTA.v2.xlsx") = py "LISTA.v2"
  /\ path_stem (py "portfolio/LISTA.v2.xlsx") = py "LISTA.v2".
Proof.
  assert (H : forall c, In c (py "LISTA.v2") \/ In c (py "xlsx") -> c <> 47%N).
  { intros c [I | I]; repeat (destruct I as [<- | I]; [discriminate|]);
      destruct I. }
  assert (D : ~ In 46%N (py "xlsx")).
  { intros I. repeat (destruct I as [I | I]; [discriminate I|]). destruct I. }
  destruct (path_stem_strips_extension (py "LISTA.v2") (py "xlsx"))
    as [Plain [Dir _]]; try discriminate; try exact D.
  - intros I. apply (H 47%N (or_introl I)). reflexivity.
  - intros I. apply (H 47%N (or_intror I)). reflexivity.
  - split; [exact Plain | exact (Dir (py "portfolio"))].
Defined.

Lemma clean_price_text_zero_witness :
  clean_price' (Scalar (CStr (py "1.234,56"))) = Ok float_zero
  /\ clean_price' (Scalar (CStr (py "consultar"))) = Ok float_zero.
Proof.
  split.
  - apply (clean_price_text_zero sample_decimal_ext sample_float_repr
             sample_series_repr (py "1.234,56")).
    right. vm_compute. lia.
  - apply (clean_price_text_zero sample_decimal_ext sample_float_repr
             sample_series_repr (py "consultar")).
    left. intros c I.
    repeat (destruct I as [<- | I]; [reflexivity|]). destruct I.
Defined.

Lemma process_frame_products_witness :
  List.length [ {| code := py "A1"; name := py "YOGURT FRESA"; unit := [];
                   price := dyadic 3200 0; brand := py "ALPINA" |} ]
  <= List.length (rows alpina)
  /\ brand_of' (py "ALPINA 2025.xls") = py "ALPINA"
  /\ dyadic 3200 0 <> S754_nan.
Proof.
  pose proof (process_frame_products sample_upper_ext sample_decimal_ext
                sample_float_repr sample_series_repr (py "ALPINA 2025.xls") alpina
                [ {| code := py "A1"; name := py "YOGURT FRESA"; unit := [];
                     price := dyadic 3200 0; brand := py "ALPINA" |} ]
                eq_refl) as [L B].
  split; [exact L|].
  destruct (B _ (or_introl eq_refl)) as [Hb Hp].
  split; [symmetry; exact Hb | exact Hp].
Defined.

Lemma found_column_is_a_label_witness :
  In (py "PRECIO") [py "CODIGO"; py "PRODUCTO"; py "PRECIO"]
  /\ truthy (price_col (find_columns' [py "CODIGO"; py "PRODUCTO"; py "PRECIO"]))
     = true.
Proof.
  destruct (found_column_is_a_label sample_upper_ext
              [py "CODIGO"; py "PRODUCTO"; py "PRECIO"] RPrice (py "PRECIO")
              eq_refl) as [I [T _]].
  split; [exact I | exact T].
Defined.

Lemma missing_required_column_no_products_witness :
  process_frame' (py "ALPINA 2025.xls")
    {| columns := [CStr (py "REF"); CStr (py "PRODUCTO")];
       rows := [ [CStr (py "1"); CStr (py "LECHE ENTERA")] ] |}
  = Ok [].
Proof.
  apply missing_required_column_no_products. left.
  intros l [<- | [<- | []]]; reflexivity.
Defined.

Lemma emitted_unit_witness :
  exists c,
    row_get (normalized_columns sample_upper_ext sample_float_repr lecheria)
            [CStr (py "001"); CStr (py "LECHE ENTERA"); CStr (py " LT ");
             CInt 4500]
            (py "UNIDAD") py_None = Scalar c
    /\ py "LT" = if isna c then [] else strip (py_str sample_float_repr c).
Proof.
  destruct (emitted_unit sample_upper_ext sample_decimal_ext sample_float_repr
              sample_series_repr
              (normalized_columns sample_upper_ext sample_float_repr lecheria)
              (find_columns' (normalized_columns sample_upper_ext
                                sample_float_repr lecheria))
              (py "LECHERIA")
              [CStr (py "001"); CStr (py "LECHE ENTERA"); CStr (py " LT ");
               CInt 4500]
              {| code := py "001"; name := py "LECHE ENTERA"; unit := py "LT";
                 price := dyadic 4500 0; brand := py "LECHERIA" |}
              eq_refl) as [_ [_ U]].
  apply (U (py "UNIDAD") eq_refl). discriminate.
Defined.

Lemma main_ignores_file_order_witness :
  main' sample_files = main' (rev sample_files).
Proof.
  apply main_ignores_file_order; [apply Permutation_rev|].
  unfold sample_files.
  repeat (constructor;
          [intros I; repeat (destruct I as [I | I]; [discriminate I|]);
           destruct I|]).
  constructor.
Defined.

Lemma catalog_is_union_of_files_witness :
  exists cat,
    main' sample_files = Ok cat
    /\ total_products cat = 3
    /\ Permutation (products cat) (flat_map file_entries' sample_files).
Proof.
  eexists. split; [vm_compute; reflexivity|]. split; [reflexivity|].
  match goal with
  | |- context [products ?c] =>
    exact (proj1 (catalog_is_union_of_files sample_upper_ext sample_decimal_ext
                    sample_float_repr sample_series_repr sample_read_excel
                    sample_files c eq_refl))
  end.
Defined.

Lemma main_raises_if_a_file_raises_witness :
  exists e, main_doubled' [py "LECHERIA 26.xlsx"; py "DOBLE.xlsx"] = Raise e.
Proof.
  apply (main_raises_if_a_file_raises sample_upper_ext sample_decimal_ext
           sample_float_repr sample_series_repr sample_read_excel_doubled
           [py "LECHERIA 26.xlsx"; py "DOBLE.xlsx"] (py "DOBLE.xlsx") ValueError).
  - right. left. reflexivity.
  - reflexivity.
Defined.

Lemma categorize_ignores_ascii_case_witness :
  categorize' (upper' (py "Leche entera")) = categorize' (py "Leche entera").
Proof.
  apply categorize_ignores_ascii_case. intros c I.
  repeat (destruct I as [<- | I]; [reflexivity|]). destruct I.
Defined.

Lemma header_guard_exact_witness :
  ~ exists p,
      process_row' [py "CODIGO"; py "PRODUCTO"]
                   (find_columns' [py "CODIGO"; py "PRODUCTO"]) (py "ALPINA")
                   [CStr (py "Codigo"); CStr (py "LECHE ENTERA")]
      = Ok (Some p).
Proof.
  intros [p E]. revert E.
  apply (header_guard_exact sample_upper_ext sample_decimal_ext sample_float_repr
           sample_series_repr [py "CODIGO"; py "PRODUCTO"]
           (find_columns' [py "CODIGO"; py "PRODUCTO"]) (py "ALPINA")
           [CStr (py "Codigo"); CStr (py "LECHE ENTERA")] (CStr (py "Codigo")));
    reflexivity.
Defined.
